(** * web-tracker: trip metrics, route snapping and date-range resolution

    A shallow embedding of [src/App.js] and [src/utils/mapbox.js].

    - JavaScript numbers are IEEE-754 binary64 values: Rocq's primitive
      [float], whose operations are the kernel's binary64 operations.
    - JavaScript values reaching the program (database rows, the JSON body of
      the map-matching response) are trees of [value]; plain objects are
      finite maps from property names to values.
    - An exception is an abrupt [completion]; [try]/[catch] is [try_catch].
    - Time values of [Date] objects used for calendar arithmetic are integer
      milliseconds since the epoch ([Z]); an invalid date is [None].
    - What the program imports from elsewhere (the [haversine] package, the
      parsing of timestamps by [new Date(x)], [Number::toString], the host's
      time zone, the HTTP transport behind [axios.get]) is a parameter. *)

From Stdlib Require Import ZArith Floats Lia.
From stdpp Require Import gmap strings list pretty.

#[local] Set Warnings "-register-all".
#[local] Open Scope Z_scope.

(** ** JavaScript values and the runtime operations the program uses *)

Module JS.

Inductive value : Type :=
  | VUndefined
  | VNull
  | VBool (b : bool)
  | VNum (n : float)
  | VStr (s : string)
  | VArr (l : list value)
  | VObj (o : gmap string value).

(** Plain objects (rows, points) are finite maps of own properties. *)
Abbreviation obj := (gmap string value).

Inductive exn : Type :=
  | TypeError
  | RequestFailed.

(** A completion: the value of an expression, or the exception it throws. *)
Inductive completion (A : Type) : Type :=
  | Normal (a : A)
  | Throw (e : exn).
Arguments Normal {A} a.
Arguments Throw {A} e.

#[export] Instance completion_ret : MRet completion := fun A a => Normal a.
#[export] Instance completion_bind : MBind completion :=
  fun A B k c => match c with Normal a => k a | Throw e => Throw e end.

(** [try { body } catch (error) { handler }] *)
Definition try_catch {A} (body : completion A) (handler : exn -> A) : A :=
  match body with Normal a => a | Throw e => handler e end.

(** [typeof v === 'number'] *)
Definition typeof_number (v : value) : bool :=
  match v with VNum _ => true | _ => false end.

(** [Array.isArray(v)] *)
Definition isArray (v : value) : bool :=
  match v with VArr _ => true | _ => false end.

(** ToBoolean: [undefined], [null], [false], [+0], [-0], [NaN] and the empty
    string are falsy; everything else, every object and array included, is
    truthy. *)
Definition ToBoolean (v : value) : bool :=
  match v with
  | VUndefined | VNull => false
  | VBool b => b
  | VNum n => negb (PrimFloat.is_zero n || PrimFloat.is_nan n)
  | VStr s => negb (String.eqb s "")
  | VArr _ | VObj _ => true
  end.

Definition nullish (v : value) : bool :=
  match v with VUndefined | VNull => true | _ => false end.

(** [v.k] for a [v] that is neither [undefined] nor [null], [k] a data
    property name other than [length]: an own property of a plain object,
    [undefined] on anything else. *)
Definition prop (v : value) (k : string) : value :=
  match v with
  | VObj o => default VUndefined (o !! k)
  | _ => VUndefined
  end.

(** [v.k]: reading a property of [undefined] or [null] throws. *)
Definition get_prop (v : value) (k : string) : completion value :=
  if nullish v then Throw TypeError else Normal (prop v k).

(** [v[i]] for an array index [i]. *)
Definition get_index (v : value) (i : nat) : completion value :=
  match v with
  | VUndefined | VNull => Throw TypeError
  | VArr l => Normal (default VUndefined (l !! i))
  | VStr s =>
      Normal (match String.get i s with
              | Some c => VStr (String c EmptyString)
              | None => VUndefined
              end)
  | VObj o => Normal (default VUndefined (o !! pretty i))
  | VBool _ | VNum _ => Normal VUndefined
  end.

(** [v.length === 0], for [v] neither [undefined] nor [null]. *)
Definition length_is_zero (v : value) : bool :=
  match v with
  | VArr l => Nat.eqb (length l) 0
  | VStr s => Nat.eqb (String.length s) 0
  | VObj o =>
      match o !! "length" with
      | Some (VNum n) => PrimFloat.eqb n 0
      | _ => false
      end
  | _ => false
  end.

(** [a === b] on values of one parsed JSON tree read at two different
    positions: primitives compare by value ([NaN] differs from itself, [+0]
    equals [-0]); two arrays or objects are two distinct references. *)
Definition strict_eq (a b : value) : bool :=
  match a, b with
  | VUndefined, VUndefined => true
  | VNull, VNull => true
  | VBool x, VBool y => Bool.eqb x y
  | VNum x, VNum y => PrimFloat.eqb x y
  | VStr x, VStr y => String.eqb x y
  | _, _ => false
  end.

(** [acc.concat(v)]: an array argument is spread, anything else is appended
    as one element. *)
Definition concat (acc : list value) (v : value) : list value :=
  match v with
  | VArr l => acc ++ l
  | _ => acc ++ [v]
  end.

(** The parameter pattern [([x, y]) => ...]: the argument is iterated; only
    arrays and strings are iterable here. *)
Definition destructure2 (v : value) : completion (value * value) :=
  match v with
  | VArr l =>
      Normal (default VUndefined (l !! 0%nat), default VUndefined (l !! 1%nat))
  | VStr s =>
      let ch i := match String.get i s with
                  | Some c => VStr (String c EmptyString)
                  | None => VUndefined
                  end in
      Normal (ch 0%nat, ch 1%nat)
  | _ => Throw TypeError
  end.

(** *** Number.prototype.toFixed *)

Definition pow10_21 : Z := 10 ^ 21.

(** The integer [n] for which [n / 100 - m * 2^e] is closest to zero, the
    larger one on a tie. *)
Definition nearest_hundredth (m : positive) (e : Z) : Z :=
  if 0 <=? e then 100 * Z.pos m * 2 ^ e
  else (200 * Z.pos m + 2 ^ (- e)) / 2 ^ (- e + 1).

(** [m * 2^e >= 10^21] *)
Definition at_least_1e21 (m : positive) (e : Z) : bool :=
  if 0 <=? e then pow10_21 <=? Z.pos m * 2 ^ e
  else pow10_21 * 2 ^ (- e) <=? Z.pos m.

Definition fixed2_digits (n : Z) : string :=
  let m := pretty (Z.to_N n) in
  let m := if (String.length m <=? 2)%nat
           then String.concat "" (replicate (3 - String.length m) "0") +:+ m
           else m in
  let k := String.length m in
  String.substring 0 (k - 2) m +:+ "." +:+ String.substring (k - 2) 2 m.

Section ToFixed.

(** Number::toString, used by [toFixed] only for magnitudes from 10^21 on. *)
Variable Number_toString : float -> string.

(** [x.toFixed(2)] *)
Definition toFixed2 (x : float) : string :=
  match Prim2SF x with
  | S754_nan => "NaN"
  | S754_infinity false => "Infinity"
  | S754_infinity true => "-Infinity"
  | S754_zero _ => "0.00"
  | S754_finite s m e =>
      if at_least_1e21 m e then (if s then "-" else "") +:+ Number_toString (abs x)
      else (if s then "-" else "") +:+ fixed2_digits (nearest_hundredth m e)
  end.

End ToFixed.

End JS.

(** ** Dates: the calendar arithmetic of ECMAScript's [Date]

    The abstract operations of the language specification (section "Date
    Objects"), over integer time values in milliseconds since the epoch. *)

Module EcmaDate.

Definition msPerSecond : Z := 1000.
Definition msPerMinute : Z := 60000.
Definition msPerHour : Z := 3600000.
Definition msPerDay : Z := 86400000.

Definition Day (t : Z) : Z := t / msPerDay.
Definition TimeWithinDay (t : Z) : Z := t mod msPerDay.

Definition DaysInYear (y : Z) : Z :=
  if negb (y mod 4 =? 0) then 365
  else if negb (y mod 100 =? 0) then 366
  else if negb (y mod 400 =? 0) then 365
  else 366.

Definition DayFromYear (y : Z) : Z :=
  365 * (y - 1970) + (y - 1969) / 4 - (y - 1901) / 100 + (y - 1601) / 400.

Definition TimeFromYear (y : Z) : Z := msPerDay * DayFromYear y.

(** The largest [y] with [TimeFromYear y <= t] (see [YearFromTime_spec]):
    an estimate from the mean length of a Gregorian year, corrected by at
    most one year either way. *)
Definition YearFromTime (t : Z) : Z :=
  let d := Day t in
  let y := 1970 + (400 * d) / 146097 in
  if DayFromYear (y + 1) <=? d then y + 1
  else if DayFromYear y <=? d then y
  else y - 1.

Definition InLeapYear (t : Z) : Z :=
  if DaysInYear (YearFromTime t) =? 366 then 1 else 0.

Definition DayWithinYear (t : Z) : Z := Day t - DayFromYear (YearFromTime t).

Definition MonthFromTime (t : Z) : Z :=
  let d := DayWithinYear t in
  let leap := InLeapYear t in
  if d <? 31 then 0
  else if d <? 59 + leap then 1
  else if d <? 90 + leap then 2
  else if d <? 120 + leap then 3
  else if d <? 151 + leap then 4
  else if d <? 181 + leap then 5
  else if d <? 212 + leap then 6
  else if d <? 243 + leap then 7
  else if d <? 273 + leap then 8
  else if d <? 304 + leap then 9
  else if d <? 334 + leap then 10
  else 11.

(** Days of the year before the first of month [m] (0 = January). *)
Definition DaysBeforeMonth (m leap : Z) : Z :=
  match m with
  | 0 => 0
  | 1 => 31
  | 2 => 59 + leap
  | 3 => 90 + leap
  | 4 => 120 + leap
  | 5 => 151 + leap
  | 6 => 181 + leap
  | 7 => 212 + leap
  | 8 => 243 + leap
  | 9 => 273 + leap
  | 10 => 304 + leap
  | _ => 334 + leap
  end.

Definition DateFromTime (t : Z) : Z :=
  DayWithinYear t - DaysBeforeMonth (MonthFromTime t) (InLeapYear t) + 1.

Definition HourFromTime (t : Z) : Z := (t / msPerHour) mod 24.
Definition MinFromTime (t : Z) : Z := (t / msPerMinute) mod 60.
Definition SecFromTime (t : Z) : Z := (t / msPerSecond) mod 60.
Definition msFromTime (t : Z) : Z := t mod msPerSecond.

Definition MakeTime (hour min sec ms : Z) : Z :=
  hour * msPerHour + min * msPerMinute + sec * msPerSecond + ms.

(** The day number of [date] counted from the first of month [month] of
    [year]; months outside 0..11 carry into the year. *)
Definition MakeDay (year month date : Z) : Z :=
  let ym := year + month / 12 in
  let mn := month mod 12 in
  let leap := if DaysInYear ym =? 366 then 1 else 0 in
  DayFromYear ym + DaysBeforeMonth mn leap + date - 1.

Definition MakeDate (day time : Z) : Z := day * msPerDay + time.

(** Time values beyond 8.64e15 ms from the epoch are not dates ([NaN]). *)
Definition TimeClip (t : Z) : option Z :=
  if Z.abs t <=? 8640000000000000 then Some t else None.

Section LocalZone.

(** The host's offset of local time from UTC, in milliseconds, at a UTC time
    value ([isUTC = true]) or at a local one ([isUTC = false]). *)
Variable LocalTZA : Z -> bool -> Z.

Definition LocalTime (t : Z) : Z := t + LocalTZA t true.
Definition UTC (t : Z) : Z := t - LocalTZA t false.

(** A [Date] object is its time value; [None] is an invalid date. *)
Definition getDate (d : option Z) : option Z :=
  t ← d; Some (DateFromTime (LocalTime t)).

(** [d.setHours(hour, min, sec, ms)]: the new time value of [d]. *)
Definition setHours (d : option Z) (hour min sec ms : Z) : option Z :=
  t ← d;
  let t := LocalTime t in
  let date := MakeDate (Day t) (MakeTime hour min sec ms) in
  TimeClip (UTC date).

(** [d.setDate(dt)]: the new time value of [d]; [dt] may be [NaN]. *)
Definition setDate (d : option Z) (dt : option Z) : option Z :=
  t ← d;
  let t := LocalTime t in
  dt ← dt;
  let newDate :=
    MakeDate (MakeDay (YearFromTime t) (MonthFromTime t) dt) (TimeWithinDay t) in
  TimeClip (UTC newDate).

End LocalZone.

End EcmaDate.

(** ** [src/App.js] *)

Module App.
Import JS EcmaDate.

Section TripMetrics.

(** [haversine(start, end, options)] of the [haversine] package: the
    great-circle distance between two points carrying [latitude] and
    [longitude], in the unit named by [options.unit]. *)
Variable haversine : obj -> obj -> obj -> float.

(** The time value of [new Date(v)], in milliseconds since the epoch; [NaN]
    for an invalid date. *)
Variable new_Date : value -> float.

Variable Number_toString : float -> string.

Definition unit_km : obj := {[ "unit" := VStr "km" ]}.
Definition unit_meter : obj := {[ "unit" := VStr "meter" ]}.

(** [{ latitude: p.latitude, longitude: p.longitude }] *)
Definition lat_lng_of (p : value) : obj :=
  {[ "latitude" := prop p "latitude"; "longitude" := prop p "longitude" ]}.

(** The guard of the loop body of [calculateTotalDistance]: the pair is
    skipped ([continue]) when it holds. *)
Definition skip_pair (a b : value) : bool :=
  negb (ToBoolean a)
  || negb (ToBoolean b)
  || negb (typeof_number (prop a "latitude"))
  || negb (typeof_number (prop a "longitude"))
  || negb (typeof_number (prop b "latitude"))
  || negb (typeof_number (prop b "longitude")).

(** [for (let i = ...; i < coords.length - 1; i++) { ... }] with [n]
    iterations left; [distance] is the accumulator. *)
Fixpoint distance_loop (coords : list value) (n i : nat) (distance : float) : float :=
  match n with
  | O => distance
  | S n' =>
      let a := default VUndefined (coords !! i) in
      let b := default VUndefined (coords !! (i + 1)%nat) in
      let distance :=
        if skip_pair a b then distance
        else (distance + haversine (lat_lng_of a) (lat_lng_of b) unit_km)%float in
      distance_loop coords n' (S i) distance
  end.

Definition calculateTotalDistance (coords : value) : string :=
  match coords with
  | VArr l =>
      if (length l <? 2)%nat then "0.00"
      else toFixed2 Number_toString (distance_loop l (length l - 1) 0 0%float)
  | _ => "0.00"
  end.

(** [new Date(b.timestamp) - new Date(a.timestamp)], in milliseconds. *)
Definition elapsed_ms (a b : obj) : float :=
  (new_Date (prop (VObj b) "timestamp") - new_Date (prop (VObj a) "timestamp"))%float.

Definition calculateSpeed (from to : obj) : float :=
  let distanceKm := haversine from to unit_km in
  let timeDiff := (elapsed_ms from to / 3600000)%float in
  if negb (ToBoolean (VNum timeDiff)) || (timeDiff <=? 0)%float then 0%float
  else (distanceKm / timeDiff)%float.

Definition isStop (current previous : obj) : bool :=
  let distanceM := haversine current previous unit_meter in
  let timeDiff := (elapsed_ms previous current / 60000)%float in
  (distanceM <=? 50)%float && (5 <=? timeDiff)%float.

(** The stop-detection loop of [fetchData]:
    [for (let i = 1; i < validCoords.length; i++)
       if (isStop(validCoords[i], validCoords[i - 1])) detectedStops.push(validCoords[i])],
    with [n] iterations left. Both indices are within the array by the loop
    bounds. *)
Fixpoint stops_loop (validCoords : list obj) (n i : nat) (detectedStops : list obj)
  : list obj :=
  match n with
  | O => detectedStops
  | S n' =>
      let detectedStops :=
        match validCoords !! i, validCoords !! (i - 1)%nat with
        | Some current, Some previous =>
            if isStop current previous then detectedStops ++ [current]
            else detectedStops
        | _, _ => detectedStops
        end in
      stops_loop validCoords n' (S i) detectedStops
  end.

Definition detectedStops (validCoords : list obj) : list obj :=
  stops_loop validCoords (length validCoords - 1) 1 [].

(** The mode label of the marker at [index], [coord = coordinates[index]]. *)
Definition speedLabel (coordinates : list obj) (index : nat) : string :=
  match index with
  | O => ""
  | S prev =>
      match coordinates !! prev, coordinates !! index with
      | Some previous, Some coord =>
          let speed := calculateSpeed previous coord in
          if (speed <? 5)%float then "Walking" else "Vehicle"
      | _, _ => ""
      end
  end.

End TripMetrics.

Section DateRange.

Variable LocalTZA : Z -> bool -> Z.

Record DateRange : Type := { start : option Z; end_ : option Z }.

(** The instants read by the three [new Date()] of [getDateRange], in
    program order. *)
Record clock : Type := { read_now : Z; read_start : Z; read_end : Z }.

Definition getDateRange (clk : clock) (option : value) : DateRange :=
  let now := Some (read_now clk) in
  let start := Some (read_start clk) in
  let end_ := Some (read_end clk) in
  if strict_eq option (VStr "today") then
    let start := setHours LocalTZA start 0 0 0 0 in
    let end_ := setHours LocalTZA end_ 23 59 59 999 in
    {| start := start; end_ := end_ |}
  else if strict_eq option (VStr "yesterday") then
    let start := setDate LocalTZA start (d ← getDate LocalTZA now; Some (d - 1)) in
    let end_ := setDate LocalTZA end_ (d ← getDate LocalTZA now; Some (d - 1)) in
    let start := setHours LocalTZA start 0 0 0 0 in
    let end_ := setHours LocalTZA end_ 23 59 59 999 in
    {| start := start; end_ := end_ |}
  else
    {| start := start; end_ := end_ |}.

End DateRange.

End App.

(** ** [src/utils/mapbox.js] *)

Module Mapbox.
Import JS.

Definition MAPBOX_TOKEN : string :=
  "pk.eyJ1IjoiY3licml4IiwiYSI6ImNtZGhvZXB1ZjAzYmcyanNoYzlyMG5kdm8ifQ.7eaEBVIX4JgCiKZ1oOzjpQ".

(** What the transport delivers for a GET request. *)
Inductive transport_outcome : Type :=
  | NetworkFailure
  | HttpResponse (status : Z) (data : value).

Section SnapToRoad.

(** Conversion to string in a template literal. *)
Variable ToString : value -> string.

(** The map-matching collaborator, as seen through HTTP. *)
Variable transport : string -> transport_outcome.

(** [axios.get(url)]: the promise is fulfilled with the response object for
    a status in 200..299 and rejected otherwise (axios's default
    [validateStatus]), or when the request fails. *)
Definition axios_get (url : string) : completion value :=
  match transport url with
  | NetworkFailure => Throw RequestFailed
  | HttpResponse status data =>
      if (200 <=? status) && (status <? 300)
      then Normal (VObj {[ "data" := data ]})
      else Throw RequestFailed
  end.

(** [coords.map(f)] for a callback that may throw. *)
Fixpoint mapM {A B} (f : A -> completion B) (l : list A) : completion (list B) :=
  match l with
  | [] => Normal []
  | x :: l' => y ← f x; ys ← mapM f l'; mret (y :: ys)
  end.

(** [p => `${p.longitude},${p.latitude}`] *)
Definition coord_pair (p : value) : completion string :=
  lng ← get_prop p "longitude";
  lat ← get_prop p "latitude";
  mret (ToString lng +:+ "," +:+ ToString lat).

Definition matching_url (coordString : string) : string :=
  "https://api.mapbox.com/matching/v5/mapbox/driving/" +:+ coordString
  +:+ "?geometries=geojson&overview=full&steps=true&access_token=" +:+ MAPBOX_TOKEN.

(** The body of [matchings.forEach(matching => ...)], threading [allCoords]. *)
Definition add_matching (allCoords : list value) (matching : value)
  : completion (list value) :=
  geometry ← get_prop matching "geometry";
  if ToBoolean geometry then
    let coordinates := prop geometry "coordinates" in
    if ToBoolean coordinates then mret (concat allCoords coordinates)
    else mret allCoords
  else mret allCoords.

Fixpoint forEach_matching (allCoords : list value) (matchings : list value)
  : completion (list value) :=
  match matchings with
  | [] => Normal allCoords
  | matching :: rest =>
      allCoords ← add_matching allCoords matching;
      forEach_matching allCoords rest
  end.

(** The callback of [allCoords.filter((coord, index, self) => ...)]. *)
Definition keep_coord (coord : value) (index : nat) (self : list value)
  : completion bool :=
  if Nat.eqb index 0 then mret true
  else
    let prev := default VUndefined (self !! (index - 1)%nat) in
    c0 ← get_index coord 0;
    p0 ← get_index prev 0;
    if negb (strict_eq c0 p0) then mret true
    else
      c1 ← get_index coord 1;
      p1 ← get_index prev 1;
      mret (negb (strict_eq c1 p1)).

(** [self.filter(...)] from [index] on, [rest] being [self] from [index]. *)
Fixpoint filter_from (self : list value) (index : nat) (rest : list value)
  : completion (list value) :=
  match rest with
  | [] => Normal []
  | coord :: rest' =>
      keep ← keep_coord coord index self;
      kept ← filter_from self (S index) rest';
      mret (if (keep : bool) then coord :: kept else kept)
  end.

(** [([lng, lat]) => ({ latitude: lat, longitude: lng })] *)
Definition to_point (coord : value) : completion value :=
  '(lng, lat) ← destructure2 coord;
  mret (VObj {[ "latitude" := lat; "longitude" := lng ]}).

(** The [try] block, from the response on. *)
Definition snapped_of_response (coords : list value) (response : value)
  : completion (list value) :=
  data ← get_prop response "data";
  matchings ← get_prop data "matchings";
  if negb (ToBoolean matchings) || length_is_zero matchings then mret coords
  else
    match matchings with
    | VArr ms =>
        allCoords ← forEach_matching [] ms;
        uniqueCoords ← filter_from allCoords 0 allCoords;
        mapM to_point uniqueCoords
    | _ => Throw TypeError
    end.

(** [snapToRoad(coords)]: what the returned promise settles to, and the URLs
    requested on the way. *)
Definition snapToRoad (coords : list value) : completion (list value) * list string :=
  if (length coords <? 2)%nat then (Normal coords, [])
  else
    match mapM coord_pair coords with
    | Throw e => (Throw e, [])
    | Normal parts =>
        let coordString := String.concat ";" parts in
        let url := matching_url coordString in
        (Normal (try_catch (response ← axios_get url;
                            snapped_of_response coords response)
                           (fun error => coords)),
         [url])
    end.

End SnapToRoad.

End Mapbox.

(** ** What the specification says, in its own words

    Reference definitions that follow the specification's text; the theorems
    below compare them with the definitions translated from the code. *)

Module Spec.
Import JS App.

Section Distance.

Variable haversine : obj -> obj -> obj -> float.
Variable Number_toString : float -> string.

(** A fix has a numeric latitude and longitude (both present, of type
    number). *)
Definition has_numeric_position (p : value) : bool :=
  typeof_number (prop p "latitude") && typeof_number (prop p "longitude").

(** The distances, in kilometres, of the consecutive pairs (i, i+1), in
    order, pairs with a fix lacking a numeric position left out. *)
Fixpoint pair_distances (fixes : list value) : list float :=
  match fixes with
  | a :: (b :: _) as rest =>
      (if has_numeric_position a && has_numeric_position b
       then [haversine (lat_lng_of a) (lat_lng_of b) unit_km]
       else [])
      ++ pair_distances rest
  | _ => []
  end.

Definition totalDistance (fixes : list value) : string :=
  if (length fixes <? 2)%nat then "0.00"
  else toFixed2 Number_toString (fold_left PrimFloat.add (pair_distances fixes) 0%float).

End Distance.

(** [v] is the number [NaN] (present, of type number). *)
Definition is_NaN (v : value) : bool :=
  match v with VNum n => PrimFloat.is_nan n | _ => false end.

Definition has_NaN_coordinate (p : obj) : bool :=
  is_NaN (prop (VObj p) "latitude") || is_NaN (prop (VObj p) "longitude").

(** The number whose value is the whole number of milliseconds [z], for
    [0 <= z < 2^53]. *)
Definition whole_ms (z : Z) : float := PrimFloat.of_uint63 (Uint63.of_Z z).

(** On a whole number of milliseconds, [elapsed / 60000 >= 5] says that at
    least 300000 ms (5 minutes) have elapsed. *)
Definition minutes_rule (z : Z) : bool :=
  Bool.eqb (5 <=? whole_ms z / 60000)%float (300000 <=? z).

(** [check] holds on [z], [z + 1], ..., [fuel] numbers in all. *)
Fixpoint holds_from (check : Z -> bool) (fuel : nat) (z : Z) : bool :=
  match fuel with
  | O => true
  | S k => check z && holds_from check k (z + 1)
  end.

Section Stops.

Variable haversine : obj -> obj -> obj -> float.
Variable new_Date : value -> float.

(** Index [i] qualifies when the pair ([fixes[i-1]], [fixes[i]]) is a stop. *)
Definition qualifies (fixes : list obj) (i : nat) : bool :=
  match fixes !! (i - 1)%nat, fixes !! i with
  | Some previous, Some current => isStop haversine new_Date current previous
  | _, _ => false
  end.

(** The indices 1 .. N-1 whose pair qualifies, in order. *)
Definition qualifying_indices (fixes : list obj) : list nat :=
  List.filter (qualifies fixes) (seq 1 (length fixes - 1)).

End Stops.

(** Coordinates as the map-matching service returns them: (longitude,
    latitude). *)
Definition lng_lat : Type := float * float.

(** Exact equality on both components. *)
Definition same_coord (a b : lng_lat) : bool :=
  (a.1 =? b.1)%float && (a.2 =? b.2)%float.

(** Drop every coordinate equal to the one immediately before it. *)
Fixpoint collapse_after (prev : lng_lat) (l : list lng_lat) : list lng_lat :=
  match l with
  | [] => []
  | c :: rest =>
      if same_coord c prev then collapse_after c rest
      else c :: collapse_after c rest
  end.

Definition dedup_adjacent (l : list lng_lat) : list lng_lat :=
  match l with
  | [] => []
  | c :: rest => c :: collapse_after c rest
  end.

(** The JSON of a coordinate, and the point [snapToRoad] makes of it. *)
Definition coord_json (c : lng_lat) : value := VArr [VNum c.1; VNum c.2].
Definition point_of (c : lng_lat) : value :=
  VObj {[ "latitude" := VNum c.2; "longitude" := VNum c.1 ]}.

(** [m] is a matched segment with coordinate list [seg]: an object whose
    [geometry] is an object whose [coordinates] is the array of [seg]. *)
Definition is_matching (m : value) (seg : list lng_lat) : Prop :=
  exists g : obj,
    prop m "geometry" = VObj g /\
    g !! "coordinates" = Some (VArr (coord_json <$> seg)).

(** The host keeps one offset from UTC all year (no daylight saving). *)
Definition fixed_offset (LocalTZA : Z -> bool -> Z) (offset : Z) : Prop :=
  forall t isUTC, LocalTZA t isUTC = offset.

(** The zone's offset from UTC never exceeds a day. *)
Definition offsets_within_a_day (LocalTZA : Z -> bool -> Z) : Prop :=
  forall t isUTC, Z.abs (LocalTZA t isUTC) <= EcmaDate.msPerDay.

(** Local day [d] has its midnight and its 23:59:59.999: neither is
    skipped by a change of the zone's offset, each is the local time of the
    instant it denotes. *)
Definition day_has_its_bounds (LocalTZA : Z -> bool -> Z) (d : Z) : Prop :=
  let first := EcmaDate.MakeDate d (EcmaDate.MakeTime 0 0 0 0) in
  let last := EcmaDate.MakeDate d (EcmaDate.MakeTime 23 59 59 999) in
  EcmaDate.LocalTime LocalTZA (EcmaDate.UTC LocalTZA first) = first
  /\ EcmaDate.LocalTime LocalTZA (EcmaDate.UTC LocalTZA last) = last.

(** Every local time of local day [d], also one that a change of offset
    skips, is read as an instant of day [d]. *)
Definition read_within_day (LocalTZA : Z -> bool -> Z) (d : Z) : Prop :=
  forall x,
    EcmaDate.Day x = d ->
    EcmaDate.Day (EcmaDate.LocalTime LocalTZA (EcmaDate.UTC LocalTZA x)) = d.

(** An instant at least 40 days inside the range of time values a [Date]
    can hold. *)
Definition far_from_limits (t : Z) : Prop :=
  Z.abs t <= 8640000000000000 - 40 * EcmaDate.msPerDay.

(** Any two offsets of the zone differ by less than a day. *)
Definition offsets_less_than_a_day_apart (LocalTZA : Z -> bool -> Z) : Prop :=
  forall t1 b1 t2 b2,
    Z.abs (LocalTZA t1 b1 - LocalTZA t2 b2) < EcmaDate.msPerDay.

(** The local calendar day never goes back as time passes: no change of
    the zone's offset puts the clock back across a midnight. *)
Definition local_day_never_goes_back (LocalTZA : Z -> bool -> Z) : Prop :=
  forall u v,
    u <= v ->
    EcmaDate.Day (EcmaDate.LocalTime LocalTZA u)
    <= EcmaDate.Day (EcmaDate.LocalTime LocalTZA v).

(** Every local time is read as an instant of its own local calendar
    day. *)
Definition read_within_its_day (LocalTZA : Z -> bool -> Z) : Prop :=
  forall d, read_within_day LocalTZA d.

(** The three clock reads of [getDateRange] fall on one local calendar
    day. *)
Definition same_local_day (LocalTZA : Z -> bool -> Z) (clk : App.clock) : Prop :=
  EcmaDate.Day (EcmaDate.LocalTime LocalTZA (App.read_start clk))
  = EcmaDate.Day (EcmaDate.LocalTime LocalTZA (App.read_now clk))
  /\ EcmaDate.Day (EcmaDate.LocalTime LocalTZA (App.read_end clk))
     = EcmaDate.Day (EcmaDate.LocalTime LocalTZA (App.read_now clk)).


(** Year, month (0 = January), day of the month, hours, minutes, seconds
    and milliseconds of a time value. *)
Definition calendar_fields (t : Z) : Z * Z * Z * Z * Z * Z * Z :=
  (EcmaDate.YearFromTime t, EcmaDate.MonthFromTime t, EcmaDate.DateFromTime t,
   EcmaDate.HourFromTime t, EcmaDate.MinFromTime t, EcmaDate.SecFromTime t,
   EcmaDate.msFromTime t).

(** The URL [snapToRoad] requests for a sequence of fixes: their
    "longitude,latitude" pairs joined by ";". *)
Definition request_url (ToString : value -> string) (fixes : list obj) : string :=
  Mapbox.matching_url
    (String.concat ";"
       ((fun p : obj => ToString (prop (VObj p) "longitude") +:+ ","
                        +:+ ToString (prop (VObj p) "latitude")) <$> fixes)).

(** The map-matching call failed (transport error, or a status outside
    200..299), or its result has no [matchings] (missing) or an empty list. *)
Definition no_matchings (out : Mapbox.transport_outcome) : bool :=
  match out with
  | Mapbox.NetworkFailure => true
  | Mapbox.HttpResponse status data =>
      negb ((200 <=? status) && (status <? 300))
      || nullish (prop data "matchings")
      || match prop data "matchings" with VArr [] => true | _ => false end
  end.

(** A point carries nothing but a latitude and a longitude. *)
Definition only_lat_lng (p : value) : bool :=
  match p with
  | VObj o => bool_decide (dom o ⊆ ({[ "latitude"; "longitude" ]} : gset string))
  | _ => false
  end.

End Spec.

(** ** Stand-ins for the collaborators, and sample data *)

Module Examples.
Import JS App Mapbox.

(** [new Date(n)] for a timestamp given as epoch milliseconds. *)
Definition epoch_ms (v : value) : float :=
  match v with VNum n => n | _ => nan end.

Definition coordinate (p : obj) (k : string) : float :=
  match p !! k with Some (VNum n) => n | _ => nan end.

(** A stand-in for [haversine]: the distance along the meridian and the
    equator between the two points, on a sphere of the radius of the unit. *)
Definition grid_distance (p q u : obj) : float :=
  let R := match u !! "unit" with
           | Some (VStr "meter") => 6371000%float
           | _ => 6371%float
           end in
  (R * (abs (coordinate q "latitude" - coordinate p "latitude")
        + abs (coordinate q "longitude" - coordinate p "longitude")))%float.

(** A stand-in for [haversine] that returns a fixed distance. *)
Definition fixed_distance (d : float) (p q u : obj) : float := d.

Definition show_number (x : float) : string := "1e+21".

Definition show_value (v : value) : string :=
  match v with VNum n => toFixed2 show_number n | _ => "undefined" end.

Definition fix_at (lat lng t : float) : obj :=
  {[ "latitude" := VNum lat; "longitude" := VNum lng; "timestamp" := VNum t;
     "tracking_id" := VStr "T1"; "address" := VNull ]}.

Definition fixA : obj := fix_at 0 0 0.
Definition fixB : obj := fix_at 0 1 300000.
Definition fixC : obj := fix_at 0 1 240000.
Definition fixNaN : obj := fix_at nan 1 600000.

(** Indian Standard Time: UTC+05:30 all year. *)
Definition ist (t : Z) (isUTC : bool) : Z := 19800000.

(** 2024-03-15T10:30:00.000 local time in [ist]. *)
Definition mid_morning : Z := 1710498600000 - 19800000.

Definition same_instant (t : Z) : clock :=
  {| read_now := t; read_start := t; read_end := t |}.

(** Three reads one millisecond apart. *)
Definition ticking (t : Z) : clock :=
  {| read_now := t; read_start := t + 1; read_end := t + 2 |}.


(** Sao Paulo around 4 November 2018. At 03:00 UTC of that day the zone
    went from UTC-03:00 to UTC-02:00: the local clock jumped from 00:00 to
    01:00, and the local times from 00:00:00.000 to 00:59:59.999 of
    4 November were skipped. A skipped local time is read with the offset
    in force before the change. *)
Definition sao_paulo (t : Z) (isUTC : bool) : Z :=
  if isUTC then (if t <? 1541300400000 then -10800000 else -7200000)
  else (if t <? 1541293200000 then -10800000 else -7200000).

(** 2018-11-04T13:00:00.000 local time in [sao_paulo] (15:00 UTC). *)
Definition sao_paulo_afternoon : Z := 1541343600000.

(** The last instant a [Date] can hold. *)
Definition last_instant : Z := 8640000000000000.

(** 2024-03-31T23:59:59.999 local time in [ist], and the reads for [start]
    and [end] one millisecond later, on 1 April. *)
Definition month_end : Z := 1711929599999 - 19800000.
Definition over_midnight : clock :=
  {| read_now := month_end; read_start := month_end + 1; read_end := month_end + 1 |}.

Definition segment_json (seg : list Spec.lng_lat) : value :=
  VObj {[ "confidence" := VNum 1;
          "geometry" := VObj {[ "type" := VStr "LineString";
                                "coordinates" := VArr (Spec.coord_json <$> seg) ]} ]}.

Definition two_segments : list (list Spec.lng_lat) :=
  [[(0, 0); (0, 1)]; [(0, 1); (0, 2)]]%float.

Definition matched (segs : list (list Spec.lng_lat)) (url : string) : transport_outcome :=
  HttpResponse 200 (VObj {[ "code" := VStr "Ok"; "matchings" := VArr (segment_json <$> segs) ]}).

Definition unreachable (url : string) : transport_outcome := NetworkFailure.

End Examples.

(** ** [src/App.js]: retrieval, derived state and presentation *)

Module AppView.
Import JS App Mapbox.

(** The global [isNaN(v)]; the program calls it on values of type number
    only (after [typeof v === 'number']). *)
Definition isNaN (v : value) : bool :=
  match v with VNum n => PrimFloat.is_nan n | _ => false end.

(** The callback of [data.filter(...)] that keeps the valid points. *)
Definition valid_point (pt : obj) : bool :=
  typeof_number (prop (VObj pt) "latitude")
  && typeof_number (prop (VObj pt) "longitude")
  && negb (isNaN (prop (VObj pt) "latitude"))
  && negb (isNaN (prop (VObj pt) "longitude")).

(** SameValueZero, the equality of [Set]: as [===], but [NaN] equals
    itself. Values read from different rows are different references when
    they are arrays or objects. *)
Definition same_value_zero (a b : value) : bool :=
  match a, b with
  | VNum x, VNum y => (x =? y)%float || (PrimFloat.is_nan x && PrimFloat.is_nan y)
  | _, _ => strict_eq a b
  end.

(** [set.add(v)] on the elements of a [Set] in insertion order; [-0] is
    stored as [+0]. *)
Definition Set_add (elements : list value) (v : value) : list value :=
  let v := match v with
           | VNum x => if (x =? 0)%float then VNum 0 else v
           | _ => v
           end in
  if existsb (same_value_zero v) elements then elements else elements ++ [v].

(** [Array.from(new Set(l))] *)
Definition Array_from_Set (l : list value) : list value :=
  fold_left Set_add l [].

(** What a Supabase query resolves to: the rows and an error, one of them
    [null]. *)
Record query_result : Type := { data : list obj; error : value }.

(** [fetchTrackingIds]: the value given to [setTrackingIds]. *)
Definition fetchTrackingIds (result : query_result) : list value :=
  if ToBoolean (error result) then []
  else
    let uniqueIds :=
      Array_from_Set ((fun d : obj => prop (VObj d) "tracking_id") <$> data result) in
    VStr "All" :: uniqueIds.

(** [polylineCoords.map((c) => [c.latitude, c.longitude])] *)
Definition polylinePositions (polylineCoords : list value) : completion (list value) :=
  mapM (fun c => lat ← get_prop c "latitude";
                 lng ← get_prop c "longitude";
                 mret (VArr [lat; lng]))
       polylineCoords.

(** The state cells [fetchData] sets. *)
Record state : Type := {
  coordinates : list obj;
  polylineCoords : list value;
  distance : string;
  stops : list obj;
  startTime : value;
  endTime : value
}.

(** All cells as [fetchData] clears them. *)
Definition cleared : state :=
  {| coordinates := []; polylineCoords := []; distance := "0.00"; stops := [];
     startTime := VNull; endTime := VNull |}.

Section FetchData.

Variable haversine : obj -> obj -> obj -> float.
Variable new_Date : value -> float.
Variable Number_toString : float -> string.
Variable ToString : value -> string.
Variable transport : string -> transport_outcome.

(** [fetchData], from the result of the query on: the state the cells end
    in and the URLs requested from the map-matching service. *)
Definition fetchData (result : query_result) : state * list string :=
  let attempt : completion state * list string :=
    if ToBoolean (error result) then (Throw RequestFailed, [])
    else
      let validCoords := List.filter valid_point (data result) in
      if Nat.eqb (length validCoords) 0 then (Normal cleared, [])
      else
        let '(snapped, requests) :=
          snapToRoad ToString transport (VObj <$> validCoords) in
        (snappedLineCoords ← snapped;
         mret {| coordinates := validCoords;
                 polylineCoords := snappedLineCoords;
                 distance := calculateTotalDistance haversine Number_toString
                               (VArr (VObj <$> validCoords));
                 stops := detectedStops haversine new_Date validCoords;
                 startTime :=
                   prop (default VUndefined ((VObj <$> validCoords) !! 0%nat))
                     "timestamp";
                 endTime :=
                   prop (default VUndefined
                           ((VObj <$> validCoords) !! (length validCoords - 1)%nat))
                     "timestamp" |},
         requests) in
  (try_catch attempt.1 (fun _ => cleared), attempt.2).

End FetchData.

End AppView.

(** ** [src/App.js], the variant with explicit dates: the query window *)

Module AppDates.
Import Stdlib.Strings.Ascii.
Import JS EcmaDate.

(** [n.toString()] for an integer-valued number of magnitude below 10^21. *)
Definition integer_toString (n : Z) : string :=
  if n <? 0 then "-" +:+ pretty (Z.to_N (- n)) else pretty (Z.to_N n).

(** [s.padStart(2, '0')] *)
Definition padStart2 (s : string) : string :=
  String.concat "" (replicate (2 - String.length s) "0") +:+ s.

(** [const pad = (n) => n.toString().padStart(2, '0')] *)
Definition pad (n : Z) : string := padStart2 (integer_toString n).

Definition digit (c : Ascii.ascii) : option Z :=
  let n := Z.of_N (Ascii.N_of_ascii c) in
  if (48 <=? n) && (n <=? 57) then Some (n - 48) else None.

(** The value of a run of decimal digits. *)
Fixpoint digits (acc : Z) (cs : list Ascii.ascii) : option Z :=
  match cs with
  | [] => Some acc
  | c :: cs' => d ← digit c; digits (10 * acc + d) cs'
  end.

(** The number of days of month [month] (1 = January) of [year]. *)
Definition days_in_month (year month : Z) : Z :=
  MakeDay year month 1 - MakeDay year (month - 1) 1.

(** The time value of [new Date(s)] for a string in the complete form
    [YYYY-MM-DDTHH:mm:ss.sssZ] of the Date Time String Format that names a
    day of the calendar and a time of the day (24:00:00.000 included);
    [None] stands for an invalid date. Strings of any other form, and days
    past the end of their month, which engines read each in its own way, are
    not covered and read as invalid here. *)
Definition new_Date_string (s : string) : option Z :=
  match String.list_ascii_of_string s with
  | [y1; y2; y3; y4; "-"; m1; m2; "-"; d1; d2; "T";
     h1; h2; ":"; n1; n2; ":"; s1; s2; "."; f1; f2; f3; "Z"]%char =>
      year ← digits 0 [y1; y2; y3; y4];
      month ← digits 0 [m1; m2];
      day ← digits 0 [d1; d2];
      hour ← digits 0 [h1; h2];
      min ← digits 0 [n1; n2];
      sec ← digits 0 [s1; s2];
      ms ← digits 0 [f1; f2; f3];
      if (1 <=? month) && (month <=? 12)
         && (1 <=? day) && (day <=? days_in_month year month)
         && (min <=? 59) && (sec <=? 59)
         && ((hour <=? 23) || ((hour =? 24) && (min =? 0) && (sec =? 0) && (ms =? 0)))
      then TimeClip (MakeDate (MakeDay year (month - 1) day) (MakeTime hour min sec ms))
      else None
  | _ => None
  end.

Section Window.

Variable LocalTZA : Z -> bool -> Z.

(** [todayStr] for a clock read at [t]:
    [`${today.getFullYear()}-${pad(today.getMonth() + 1)}-${pad(today.getDate())}`] *)
Definition todayStr (t : Z) : string :=
  let today := LocalTime LocalTZA t in
  integer_toString (YearFromTime today) +:+ "-" +:+ pad (MonthFromTime today + 1)
  +:+ "-" +:+ pad (DateFromTime today).

End Window.

(** [new Date(`${fromDate}T00:00:00.000Z`)] and
    [new Date(`${toDate}T23:59:59.999Z`)], the bounds of the query. *)
Definition fromTime (fromDate : string) : option Z :=
  new_Date_string (fromDate +:+ "T00:00:00.000Z").
Definition toTime (toDate : string) : option Z :=
  new_Date_string (toDate +:+ "T23:59:59.999Z").

(** The decimal digits of [n] are [width] digits that read back as [n]. *)
Definition reads_back (width : nat) (show : Z -> string) (n : Z) : bool :=
  let cs := String.list_ascii_of_string (show n) in
  Nat.eqb (length cs) width
  && match digits 0 cs with Some m => m =? n | None => false end.

End AppDates.

(** ** Notions used to state what the rest of the code does *)

Module Notions.
Import JS App Mapbox.

(** A matching that [snapToRoad] passes over: an element that is neither
    [null] nor [undefined] and has no truthy [geometry], or a geometry with
    no truthy [coordinates]. *)
Definition lacks_geometry (m : value) : bool :=
  negb (nullish m)
  && (negb (ToBoolean (prop m "geometry"))
      || negb (ToBoolean (prop (prop m "geometry") "coordinates"))).

(** The coordinates a matching contributes: those of its geometry, or none
    when it is passed over. *)
Definition contributes (m : value) (seg : list Spec.lng_lat) : Prop :=
  Spec.is_matching m seg \/ (lacks_geometry m = true /\ seg = []).

(** No coordinate equals (on both components) the one right before it. *)
Definition no_adjacent_equal (l : list Spec.lng_lat) : Prop :=
  forall (i : nat) (a b : Spec.lng_lat),
    l !! i = Some a -> l !! S i = Some b -> Spec.same_coord b a = false.

(** Each element of [l] differs from the one before it, [prev] before the
    first. *)
Fixpoint each_differs (prev : Spec.lng_lat) (l : list Spec.lng_lat) : Prop :=
  match l with
  | [] => True
  | c :: rest => Spec.same_coord c prev = false /\ each_differs c rest
  end.

(** A point whose own keys are exactly [latitude] and [longitude]. *)
Definition lat_lng_point (p : value) : bool :=
  match p with
  | VObj o => bool_decide (dom o = ({[ "latitude"; "longitude" ]} : gset string))
  | _ => false
  end.

(** The position Leaflet is given for a coordinate: [[lat, lng]]. *)
Definition position_of (c : Spec.lng_lat) : value := VArr [VNum c.2; VNum c.1].

(** The time value of the timestamp of a fix is [NaN]: an invalid date. *)
Definition invalid_timestamp (new_Date : value -> float) (p : obj) : bool :=
  PrimFloat.is_nan (new_Date (prop (VObj p) "timestamp")).

(** The distances of all consecutive pairs of a list of fixes, in order. *)
Definition all_pair_distances (haversine : obj -> obj -> obj -> float)
    (fixes : list obj) : list float :=
  (fun ab : obj * obj =>
     haversine (lat_lng_of (VObj ab.1)) (lat_lng_of (VObj ab.2)) unit_km)
    <$> zip fixes (tail fixes).

End Notions.

(** ** More sample data *)

Module Samples.
Import JS App Mapbox.

(** A 200 answer whose [matchings] is [ms]. *)
Definition answers (ms : list value) (url : string) : transport_outcome :=
  HttpResponse 200 (VObj {[ "matchings" := VArr ms ]}).

(** Two matched segments around a matching without geometry. *)
Definition with_gap : list value :=
  [Examples.segment_json [(0, 0); (0, 1)]%float;
   VObj {[ "confidence" := VNum 0 ]};
   Examples.segment_json [(0, 1); (0, 2)]%float].

(** A matched segment followed by [null]. *)
Definition with_null : list value :=
  [Examples.segment_json [(0, 0); (0, 1)]%float; VNull].

(** Rows as the store returns them: the second has a [NaN] latitude. *)
Definition rows : AppView.query_result :=
  {| AppView.data := [Examples.fixA; Examples.fixNaN; Examples.fixB];
     AppView.error := VNull |}.

(** A fix whose timestamp does not parse. *)
Definition fixBadTime : obj :=
  {[ "latitude" := VNum 0; "longitude" := VNum 1; "timestamp" := VStr "soon" ]}.

End Samples.

(** * Properties *)

Import JS EcmaDate App Mapbox.

(** ** Binary64 facts used below *)

Section Binary64.

Lemma is_nan_Prim2SF (x : float) : PrimFloat.is_nan x = true <-> Prim2SF x = S754_nan.
Proof.
  unfold Prim2SF. destruct (PrimFloat.is_nan x); [tauto|].
  split; [discriminate|].
  destruct (PrimFloat.is_zero x); [discriminate|].
  destruct (PrimFloat.is_infinity x); [discriminate|].
  destruct (Z.frexp x) as [r ex]. destruct (shr_fexp _ _ _ _ _) as [shr e'].
  destruct (shr_m shr); discriminate.
Qed.

Lemma add_nan_l (x y : float) :
  PrimFloat.is_nan x = true -> PrimFloat.is_nan (x + y) = true.
Proof. rewrite !is_nan_Prim2SF, add_spec. by intros ->. Qed.

Lemma add_nan_r (x y : float) :
  PrimFloat.is_nan y = true -> PrimFloat.is_nan (x + y) = true.
Proof.
  rewrite !is_nan_Prim2SF, add_spec. intros ->.
  unfold SF64add, SFadd. by destruct (Prim2SF x).
Qed.

Lemma sub_nan_l (x y : float) :
  PrimFloat.is_nan x = true -> PrimFloat.is_nan (x - y) = true.
Proof. rewrite !is_nan_Prim2SF, sub_spec. by intros ->. Qed.

Lemma sub_nan_r (x y : float) :
  PrimFloat.is_nan y = true -> PrimFloat.is_nan (x - y) = true.
Proof.
  rewrite !is_nan_Prim2SF, sub_spec. intros ->.
  unfold SF64sub, SFsub. by destruct (Prim2SF x).
Qed.

Lemma abs_nan (x : float) :
  PrimFloat.is_nan x = true -> PrimFloat.is_nan (abs x) = true.
Proof. rewrite !is_nan_Prim2SF, abs_spec. by intros ->. Qed.

Lemma mul_nan_r (x y : float) :
  PrimFloat.is_nan y = true -> PrimFloat.is_nan (x * y) = true.
Proof.
  rewrite !is_nan_Prim2SF, mul_spec. intros ->.
  unfold SF64mul, SFmul. by destruct (Prim2SF x).
Qed.

(** The quotient of two finite numbers has the sign of the operands' signs,
    whatever it rounds to. *)
Lemma SF64div_sign sx mx ex sy my ey :
  match SF64div (S754_finite sx mx ex) (S754_finite sy my ey) with
  | S754_zero s | S754_infinity s | S754_finite s _ _ => s = xorb sx sy
  | S754_nan => True
  end.
Proof.
  unfold SF64div, SFdiv.
  destruct (SFdiv_core_binary _ _ _ _ _ _) as [[mz ez] lz].
  unfold binary_round_aux.
  destruct (shr_fexp _ _ mz ez lz) as [mrs' e'].
  destruct (shr_fexp _ _ _ e' _) as [mrs'' e''].
  destruct (shr_m mrs''); [reflexivity| |exact I].
  destruct (_ <=? _); reflexivity.
Qed.

(** A number that is zero or negative, divided by a positive finite
    constant, is [NaN], zero or negative. *)
Lemma div_nonpositive (e c : float) m ex :
  Prim2SF c = S754_finite false m ex ->
  (e <=? 0)%float = true ->
  PrimFloat.is_nan (e / c) || (e / c <=? 0)%float = true.
Proof.
  intros Hc He.
  rewrite leb_spec in He. rewrite leb_spec.
  destruct (PrimFloat.is_nan (e / c)) eqn:Hn; [reflexivity|]. simpl.
  assert (Hq : Prim2SF (e / c) <> S754_nan).
  { intros H. apply is_nan_Prim2SF in H. congruence. }
  rewrite div_spec, Hc in Hq. rewrite div_spec, Hc.
  change (Prim2SF 0) with (S754_zero false) in *.
  destruct (Prim2SF e) as [s|s| |s me ee]; try discriminate.
  - reflexivity.
  - destruct s; [reflexivity|discriminate].
  - destruct s; [|discriminate].
    pose proof (SF64div_sign true me ee false m ex) as Hs.
    destruct (SF64div _ _) as [s|s| |s m' e']; try congruence; subst s; reflexivity.
Qed.

Lemma holds_from_spec check fuel z :
  Spec.holds_from check fuel z = true ->
  forall i, z <= i < z + Z.of_nat fuel -> check i = true.
Proof.
  revert z. induction fuel as [|k IH]; intros z H i Hi; [lia|].
  simpl in H. apply andb_true_iff in H as [H0 H1].
  destruct (Z.eq_dec i z) as [->|]; [done|]. apply (IH (z + 1)); [done|lia].
Qed.

Lemma minutes_rule_one_hour :
  Spec.holds_from Spec.minutes_rule (Z.to_nat 3600001) 0 = true.
Proof. vm_compute. reflexivity. Qed.

End Binary64.

(** ** Speed and mode classifier, stop detector *)

Section PairwiseRules.
Variable haversine : obj -> obj -> obj -> float.
Variable new_Date : value -> float.

(** C5. When the time elapsed from the previous fix to the current one is
    zero or negative, [calculateSpeed] returns the number 0 (it neither
    throws nor divides), and the marker of the current fix is labelled
    "Walking", whatever the distance between the two fixes. *)
Theorem speed_zero_when_no_time_elapsed
    (coordinates : list obj) (i : nat) (previous coord : obj) :
  coordinates !! i = Some previous ->
  coordinates !! S i = Some coord ->
  (elapsed_ms new_Date previous coord <=? 0)%float = true ->
  calculateSpeed haversine new_Date previous coord = 0%float
  /\ speedLabel haversine new_Date coordinates (S i) = "Walking".
Proof.
  intros Hprev Hcoord Hle.
  assert (Hspeed : calculateSpeed haversine new_Date previous coord = 0%float).
  { unfold calculateSpeed. cbn [ToBoolean].
    pose proof (div_nonpositive (elapsed_ms new_Date previous coord) 3600000
                  _ _ eq_refl Hle) as Hguard.
    destruct (PrimFloat.is_nan _) eqn:Hn.
    - by rewrite orb_true_r.
    - simpl in Hguard. rewrite Hguard. by rewrite orb_true_r. }
  split; [exact Hspeed|].
  unfold speedLabel. rewrite Hprev, Hcoord, Hspeed. reflexivity.
Qed.

(** C2. A pair of consecutive fixes is a stop exactly when the distance
    between them is at most 50 metres and the time elapsed between their
    timestamps is at least 5 minutes. Both bounds are inclusive: exactly 50 m
    after exactly 5 minutes (300000 ms) is a stop; 51 m is not, whatever the
    duration; 4 minutes (240000 ms) is not, whatever the distance. For
    timestamps a whole number of milliseconds apart, up to an hour, the
    duration test holds exactly from 300000 ms on. *)
Theorem isStop_thresholds (current previous : obj) :
  let distanceM := haversine current previous unit_meter in
  let elapsed := elapsed_ms new_Date previous current in
  (isStop haversine new_Date current previous = true
   <-> (distanceM <=? 50)%float = true /\ (5 <=? elapsed / 60000)%float = true)
  /\ (distanceM = 50%float -> elapsed = 300000%float ->
      isStop haversine new_Date current previous = true)
  /\ (distanceM = 51%float -> isStop haversine new_Date current previous = false)
  /\ (elapsed = 240000%float -> isStop haversine new_Date current previous = false)
  /\ (forall ms : Z, 0 <= ms <= 3600000 -> elapsed = Spec.whole_ms ms ->
      (5 <=? elapsed / 60000)%float = (300000 <=? ms)).
Proof.
  cbv zeta. unfold isStop. split; [|split; [|split; [|split]]].
  - apply andb_true_iff.
  - intros -> ->. reflexivity.
  - intros ->. reflexivity.
  - intros ->. apply andb_false_r.
  - intros ms Hms ->. apply eqb_prop.
    apply (holds_from_spec _ _ _ minutes_rule_one_hour). rewrite Z2Nat.id; lia.
Qed.

End PairwiseRules.

Lemma speed_zero_when_no_time_elapsed_witness :
  calculateSpeed Examples.grid_distance Examples.epoch_ms Examples.fixB Examples.fixC
    = 0%float
  /\ speedLabel Examples.grid_distance Examples.epoch_ms
       [Examples.fixB; Examples.fixC] 1 = "Walking".
Proof.
  apply (speed_zero_when_no_time_elapsed Examples.grid_distance Examples.epoch_ms
           [Examples.fixB; Examples.fixC] 0 Examples.fixB Examples.fixC);
    reflexivity.
Defined.

Lemma isStop_thresholds_witness :
  isStop (Examples.fixed_distance 50) Examples.epoch_ms Examples.fixB Examples.fixA
    = true.
Proof.
  apply (proj1 (proj2 (isStop_thresholds (Examples.fixed_distance 50)
                         Examples.epoch_ms Examples.fixB Examples.fixA)));
    reflexivity.
Defined.

(** ** Distance engine *)

Section DistanceEngine.

Variable haversine : obj -> obj -> obj -> float.
Variable Number_toString : float -> string.

(** The guard of the loop skips exactly the pairs in which a fix lacks a
    numeric latitude or longitude; a missing element ([null], [undefined])
    has neither. *)
Lemma skip_pair_spec (a b : value) :
  skip_pair a b = negb (Spec.has_numeric_position a && Spec.has_numeric_position b).
Proof.
  unfold skip_pair, Spec.has_numeric_position.
  destruct a, b; cbn [ToBoolean prop typeof_number negb orb andb];
    rewrite ?orb_true_r; try reflexivity;
    repeat match goal with
           | |- context [typeof_number ?v] => destruct (typeof_number v)
           end; reflexivity.
Qed.

(** The loop, started at the index where [rest] begins, adds the distances
    of the consecutive pairs of [rest] to the accumulator, from left to
    right. *)
Lemma distance_loop_spec (pre rest : list value) (distance : float) :
  distance_loop haversine (pre ++ rest) (length rest - 1) (length pre) distance
  = fold_left PrimFloat.add (Spec.pair_distances haversine rest) distance.
Proof.
  revert pre distance.
  induction rest as [|a [|b tl] IH]; intros pre distance; [reflexivity..|].
  assert (Ha : (pre ++ a :: b :: tl) !! length pre = Some a)
    by (by rewrite lookup_app_r, Nat.sub_diag by lia).
  assert (Hb : (pre ++ a :: b :: tl) !! (length pre + 1)%nat = Some b).
  { rewrite lookup_app_r by lia.
    by replace (length pre + 1 - length pre)%nat with 1%nat by lia. }
  replace (length (a :: b :: tl) - 1)%nat with (S (length tl)) by (cbn; lia).
  cbn [distance_loop]. rewrite Ha, Hb. cbn [default from_option]. unfold id.
  rewrite skip_pair_spec.
  specialize (IH (pre ++ [a])).
  rewrite <- app_assoc, length_app in IH. cbn [app length] in IH.
  replace (S (length tl) - 1)%nat with (length tl) in IH by lia.
  replace (S (length pre)) with (length pre + 1)%nat by lia.
  rewrite IH. change (Spec.pair_distances haversine (a :: b :: tl)) with
    ((if Spec.has_numeric_position a && Spec.has_numeric_position b
      then [haversine (lat_lng_of a) (lat_lng_of b) unit_km] else [])
     ++ Spec.pair_distances haversine (b :: tl)).
  destruct (Spec.has_numeric_position a && Spec.has_numeric_position b);
    reflexivity.
Qed.

Lemma calculateTotalDistance_array (coords : list value) :
  calculateTotalDistance haversine Number_toString (VArr coords)
  = Spec.totalDistance haversine Number_toString coords.
Proof.
  unfold calculateTotalDistance, Spec.totalDistance.
  destruct (length coords <? 2)%nat; [reflexivity|].
  by rewrite <- (distance_loop_spec [] coords).
Qed.

(** C3. [calculateTotalDistance] returns "0.00" for the empty sequence, for
    a singleton and for anything that is not an array; for a sequence of two
    or more fixes it returns the sum, from left to right, of the [haversine]
    distances in kilometres of the consecutive pairs (i, i+1), leaving out
    the pairs in which a fix lacks a numeric latitude or longitude, in the
    2-decimal format of [toFixed(2)]. *)
Theorem calculateTotalDistance_spec :
  calculateTotalDistance haversine Number_toString (VArr []) = "0.00"
  /\ (forall a, calculateTotalDistance haversine Number_toString (VArr [a]) = "0.00")
  /\ (forall v, isArray v = false ->
        calculateTotalDistance haversine Number_toString v = "0.00")
  /\ (forall a b rest,
        calculateTotalDistance haversine Number_toString (VArr (a :: b :: rest))
        = toFixed2 Number_toString
            (fold_left PrimFloat.add
               (Spec.pair_distances haversine (a :: b :: rest)) 0%float))
  /\ (forall coords,
        calculateTotalDistance haversine Number_toString (VArr coords)
        = Spec.totalDistance haversine Number_toString coords).
Proof.
  split; [reflexivity|]. split; [reflexivity|]. split; [by intros []|].
  split; [|apply calculateTotalDistance_array].
  intros a b rest. by rewrite calculateTotalDistance_array.
Qed.

(** Once a [NaN] is among the addends, the sum is [NaN]. *)
Lemma fold_left_add_nan (ds : list float) (d : float) :
  PrimFloat.is_nan d = true \/ Exists (fun x => PrimFloat.is_nan x = true) ds ->
  PrimFloat.is_nan (fold_left PrimFloat.add ds d) = true.
Proof.
  revert d. induction ds as [|x ds IH]; intros d [Hd|Hex]; cbn [fold_left].
  - exact Hd.
  - inversion Hex.
  - apply IH. left. by apply add_nan_l.
  - apply IH. inversion Hex; subst; [left; by apply add_nan_r | by right].
Qed.

Lemma pair_distances_elem (coords : list value) (i : nat) (a b : value) :
  coords !! i = Some a ->
  coords !! (i + 1)%nat = Some b ->
  Spec.has_numeric_position a = true ->
  Spec.has_numeric_position b = true ->
  haversine (lat_lng_of a) (lat_lng_of b) unit_km
    ∈ Spec.pair_distances haversine coords.
Proof.
  revert i. induction coords as [|x [|y tl] IH]; intros i Ha Hb Hna Hnb.
  - done.
  - destruct i; done.
  - cbn [Spec.pair_distances]. destruct i as [|i].
    + cbn in Ha, Hb. simplify_eq. rewrite Hna, Hnb. cbn. set_solver.
    + rewrite elem_of_app. right. by apply (IH i).
Qed.

(** C10. When the two fixes of a consecutive pair carry latitudes and
    longitudes that are all of type number and one of them is [NaN], the
    guard of [calculateTotalDistance] does not skip the pair; [haversine]
    yields [NaN] on it, the sum stays [NaN], and the function returns the
    string "NaN". *)
Theorem calculateTotalDistance_NaN
    (coords : list value) (i : nat) (a b : value) :
  (forall p q u : obj,
      Spec.has_NaN_coordinate p || Spec.has_NaN_coordinate q = true ->
      PrimFloat.is_nan (haversine p q u) = true) ->
  coords !! i = Some a ->
  coords !! (i + 1)%nat = Some b ->
  Spec.has_numeric_position a = true ->
  Spec.has_numeric_position b = true ->
  Spec.is_NaN (prop a "latitude") || Spec.is_NaN (prop a "longitude")
  || Spec.is_NaN (prop b "latitude") || Spec.is_NaN (prop b "longitude") = true ->
  skip_pair a b = false
  /\ calculateTotalDistance haversine Number_toString (VArr coords) = "NaN".
Proof.
  intros Hhav Ha Hb Hna Hnb Hnan.
  split; [by rewrite skip_pair_spec, Hna, Hnb|].
  assert (Hlen : (length coords <? 2)%nat = false).
  { apply Nat.ltb_ge. apply lookup_lt_Some in Hb. lia. }
  rewrite calculateTotalDistance_array. unfold Spec.totalDistance. rewrite Hlen.
  assert (Hsum : PrimFloat.is_nan
            (fold_left PrimFloat.add (Spec.pair_distances haversine coords) 0%float)
          = true).
  { apply fold_left_add_nan. right. apply Exists_exists.
    exists (haversine (lat_lng_of a) (lat_lng_of b) unit_km). split.
    - by apply (pair_distances_elem coords i).
    - apply Hhav. unfold Spec.has_NaN_coordinate, lat_lng_of. cbn [prop].
      rewrite !lookup_insert_eq, !lookup_insert_ne, !lookup_singleton_eq by done.
      cbn [default from_option]. by rewrite orb_assoc. }
  unfold toFixed2. apply is_nan_Prim2SF in Hsum. by rewrite Hsum.
Qed.

End DistanceEngine.

Lemma coordinate_NaN (p : obj) (k : string) :
  Spec.is_NaN (prop (VObj p) k) = true ->
  PrimFloat.is_nan (Examples.coordinate p k) = true.
Proof.
  unfold Spec.is_NaN, Examples.coordinate. cbn [prop].
  by destruct (p !! k) as [[]|].
Qed.

(** The stand-in distance is [NaN] as soon as a coordinate is. *)
Lemma grid_distance_NaN (p q u : obj) :
  Spec.has_NaN_coordinate p || Spec.has_NaN_coordinate q = true ->
  PrimFloat.is_nan (Examples.grid_distance p q u) = true.
Proof.
  unfold Spec.has_NaN_coordinate, Examples.grid_distance.
  intros [[H|H]%orb_true_iff|[H|H]%orb_true_iff]%orb_true_iff;
    apply coordinate_NaN in H; apply mul_nan_r.
  - by apply add_nan_l, abs_nan, sub_nan_r.
  - by apply add_nan_r, abs_nan, sub_nan_r.
  - by apply add_nan_l, abs_nan, sub_nan_l.
  - by apply add_nan_r, abs_nan, sub_nan_l.
Qed.

Lemma calculateTotalDistance_NaN_witness :
  skip_pair (VObj Examples.fixB) (VObj Examples.fixNaN) = false
  /\ calculateTotalDistance Examples.grid_distance Examples.show_number
       (VArr [VObj Examples.fixA; VObj Examples.fixB; VObj Examples.fixNaN]) = "NaN".
Proof.
  apply (calculateTotalDistance_NaN Examples.grid_distance Examples.show_number
           [VObj Examples.fixA; VObj Examples.fixB; VObj Examples.fixNaN] 1
           (VObj Examples.fixB) (VObj Examples.fixNaN));
    [exact grid_distance_NaN | reflexivity..].
Defined.

(** ** Stop detector *)

Section StopDetector.

Variable haversine : obj -> obj -> obj -> float.
Variable new_Date : value -> float.

(** The loop run for [n] iterations from index [i] appends, in order, the
    fix at every qualifying index among [i], ..., [i + n - 1]. *)
Lemma stops_loop_spec (validCoords : list obj) (n i : nat) (acc : list obj) :
  (1 <= i)%nat ->
  stops_loop haversine new_Date validCoords n i acc
  = acc ++ omap (fun j => validCoords !! j) (List.filter (Spec.qualifies haversine new_Date validCoords) (seq i n)).
Proof.
  revert i acc. induction n as [|n IH]; intros i acc Hi.
  - cbn. by rewrite app_nil_r.
  - cbn [stops_loop seq List.filter]. rewrite IH by lia.
    assert (Hq : Spec.qualifies haversine new_Date validCoords i
                 = match validCoords !! i, validCoords !! (i - 1)%nat with
                   | Some current, Some previous =>
                       isStop haversine new_Date current previous
                   | _, _ => false
                   end).
    { unfold Spec.qualifies.
      by destruct (validCoords !! i), (validCoords !! (i - 1)%nat). }
    rewrite Hq.
    destruct (validCoords !! i) as [current|] eqn:Hc,
             (validCoords !! (i - 1)%nat) as [previous|] eqn:Hp;
      try reflexivity.
    destruct (isStop _ _ current previous); [|reflexivity].
    cbn [omap list_omap]. rewrite Hc. by rewrite <- app_assoc.
Qed.

Lemma qualifying_indices_range (fixes : list obj) :
  Forall (fun i => (1 <= i < length fixes)%nat)
    (Spec.qualifying_indices haversine new_Date fixes).
Proof.
  apply Forall_forall. intros i [Hi _]%list_elem_of_In%filter_In.
  apply in_seq in Hi. lia.
Qed.

Lemma omap_lookup_length {A} (l : list A) (idx : list nat) :
  Forall (fun i => (i < length l)%nat) idx ->
  length (omap (fun j => l !! j) idx) = length idx.
Proof.
  induction 1 as [|i idx Hi _ IH]; [reflexivity|].
  cbn [omap list_omap]. destruct (lookup_lt_is_Some_2 l i Hi) as [x ->].
  cbn. by rewrite <- IH.
Qed.

(** C4. The stops detected in a sequence of N fixes are the fixes at the
    qualifying indices among 1, ..., N-1, in order: one event for every
    qualifying pair (previous, current), each one the later fix of its pair.
    Index 0 never gives an event, and there are at most N-1 events. *)
Theorem detectedStops_spec (validCoords : list obj) :
  let indices := Spec.qualifying_indices haversine new_Date validCoords in
  detectedStops haversine new_Date validCoords
    = omap (fun i => validCoords !! i) indices
  /\ Forall (fun i => (1 <= i < length validCoords)%nat
                     /\ exists previous current,
                          validCoords !! (i - 1)%nat = Some previous
                          /\ validCoords !! i = Some current
                          /\ isStop haversine new_Date current previous = true)
       indices
  /\ length (detectedStops haversine new_Date validCoords) = length indices
  /\ (length (detectedStops haversine new_Date validCoords)
      <= length validCoords - 1)%nat.
Proof.
  cbv zeta.
  assert (Heq : detectedStops haversine new_Date validCoords
                = omap (fun i => validCoords !! i)
                    (Spec.qualifying_indices haversine new_Date validCoords)).
  { unfold detectedStops. by rewrite stops_loop_spec by lia. }
  assert (Hlen : length (detectedStops haversine new_Date validCoords)
                 = length (Spec.qualifying_indices haversine new_Date validCoords)).
  { rewrite Heq. apply omap_lookup_length.
    eapply Forall_impl; [apply qualifying_indices_range|]. cbn. lia. }
  split; [exact Heq|]. split; [|split; [exact Hlen|]].
  - apply Forall_forall. intros i Hin. split.
    + pose proof (qualifying_indices_range validCoords) as Hr.
      rewrite Forall_forall in Hr. by apply Hr.
    + apply list_elem_of_In, filter_In in Hin as [_ Hq].
      unfold Spec.qualifies in Hq.
      destruct (validCoords !! (i - 1)%nat) as [previous|]; [|done].
      destruct (validCoords !! i) as [current|]; [|done].
      by exists previous, current.
  - rewrite Hlen. unfold Spec.qualifying_indices.
    etransitivity; [apply filter_length_le|]. by rewrite length_seq.
Qed.

End StopDetector.

(** ** Route snapping adapter *)

Section RouteSnapping.

Variable ToString : value -> string.
Variable transport : string -> transport_outcome.

Lemma mapM_coord_pair (fixes : list obj) :
  mapM (coord_pair ToString) (VObj <$> fixes)
  = Normal ((fun p : obj => ToString (prop (VObj p) "longitude") +:+ ","
                            +:+ ToString (prop (VObj p) "latitude")) <$> fixes).
Proof.
  induction fixes as [|p fixes IH]; [reflexivity|].
  cbn [fmap list_fmap mapM]. fold (fmap (M:=list) VObj fixes).
  rewrite IH. reflexivity.
Qed.

(** From two fixes on, [snapToRoad] issues one request, for the URL of the
    fixes, and settles to what its [try] block makes of the response. *)
Lemma snapToRoad_request (fixes : list obj) :
  (2 <= length fixes)%nat ->
  snapToRoad ToString transport (VObj <$> fixes)
  = (Normal (try_catch
               (response ← axios_get transport (Spec.request_url ToString fixes);
                snapped_of_response (VObj <$> fixes) response)
               (fun _ => VObj <$> fixes)),
     [Spec.request_url ToString fixes]).
Proof.
  intros Hlen. unfold snapToRoad.
  rewrite length_fmap. destruct (Nat.ltb_spec (length fixes) 2) as [|_]; [lia|].
  by rewrite mapM_coord_pair.
Qed.

Lemma get_prop_response (data : value) :
  get_prop (VObj {[ "data" := data ]}) "data" = Normal data.
Proof. unfold get_prop. cbn [nullish prop]. by rewrite lookup_singleton_eq. Qed.

(** C6. With no fix or a single fix, [snapToRoad] returns its input
    unchanged and requests nothing from the map-matching service. *)
Theorem snapToRoad_short :
  snapToRoad ToString transport [] = (Normal [], [])
  /\ forall p, snapToRoad ToString transport [p] = (Normal [p], []).
Proof. split; reflexivity. Qed.

(** C1, as the code has it. For a sequence of two or more fixes, when the
    map-matching call fails (transport error or a status outside 200..299)
    or its result has no matchings (missing or empty), [snapToRoad] does not
    throw: after its one request it returns the input fixes themselves, so
    the same number of points with the same latitudes and longitudes, every
    other field of a fix still on it. *)
Theorem snapToRoad_fallback (fixes : list obj) :
  (2 <= length fixes)%nat ->
  Spec.no_matchings (transport (Spec.request_url ToString fixes)) = true ->
  snapToRoad ToString transport (VObj <$> fixes)
  = (Normal (VObj <$> fixes), [Spec.request_url ToString fixes]).
Proof.
  intros Hlen Hfail. rewrite snapToRoad_request by done. f_equal. f_equal.
  unfold axios_get. unfold Spec.no_matchings in Hfail.
  destruct (transport _) as [|status data]; [reflexivity|].
  destruct ((200 <=? status) && (status <? 300)); [|reflexivity].
  cbn [negb orb] in Hfail.
  cbn [mbind completion_bind]. unfold snapped_of_response.
  rewrite get_prop_response. cbn [mbind completion_bind].
  unfold get_prop. destruct (nullish data) eqn:Hdata; [reflexivity|].
  cbn [mbind completion_bind try_catch].
  destruct (prop data "matchings") as [| | | | |[|m ms]|]; try done.
Qed.

Lemma add_matching_ok (allCoords : list value) (m : value) (seg : list Spec.lng_lat) :
  Spec.is_matching m seg ->
  add_matching allCoords m = Normal (allCoords ++ (Spec.coord_json <$> seg)).
Proof.
  intros (g & Hg & Hc). unfold add_matching, get_prop.
  destruct m; try discriminate Hg. cbn [nullish mbind completion_bind].
  rewrite Hg. cbn [ToBoolean prop]. rewrite Hc. reflexivity.
Qed.

Lemma forEach_matching_ok (allCoords ms : list value) (segs : list (list Spec.lng_lat)) :
  Forall2 Spec.is_matching ms segs ->
  forEach_matching allCoords ms
  = Normal (allCoords ++ (Spec.coord_json <$> List.concat segs)).
Proof.
  intros H. revert allCoords.
  induction H as [|m seg ms segs Hm _ IH]; intros allCoords.
  - cbn. by rewrite app_nil_r.
  - cbn [forEach_matching List.concat]. rewrite (add_matching_ok _ _ _ Hm).
    cbn [mbind completion_bind]. rewrite IH, fmap_app. by rewrite <- app_assoc.
Qed.

Lemma keep_coord_after (pre : list Spec.lng_lat) (p c : Spec.lng_lat)
    (rest : list Spec.lng_lat) :
  keep_coord (Spec.coord_json c) (S (length pre))
    (Spec.coord_json <$> (pre ++ p :: rest))
  = Normal (negb (Spec.same_coord c p)).
Proof.
  unfold keep_coord. cbn [Nat.eqb].
  replace (S (length pre) - 1)%nat with (length pre) by lia.
  rewrite list_lookup_fmap, lookup_app_r, Nat.sub_diag by lia.
  cbn [lookup list_lookup fmap option_fmap option_map default from_option].
  unfold id, Spec.same_coord.
  cbn [Spec.coord_json get_index lookup list_lookup default from_option
       mbind completion_bind strict_eq].
  unfold id, strict_eq. destruct (c.1 =? p.1)%float; reflexivity.
Qed.

Lemma filter_from_after (pre : list Spec.lng_lat) (p : Spec.lng_lat)
    (rest : list Spec.lng_lat) :
  filter_from (Spec.coord_json <$> (pre ++ p :: rest)) (S (length pre))
    (Spec.coord_json <$> rest)
  = Normal (Spec.coord_json <$> Spec.collapse_after p rest).
Proof.
  revert pre p. induction rest as [|c rest IH]; intros pre p; [reflexivity|].
  cbn [fmap list_fmap filter_from].
  fold (fmap (M:=list) Spec.coord_json rest).
  fold (fmap (M:=list) Spec.coord_json (pre ++ p :: c :: rest)).
  rewrite keep_coord_after. cbn [mbind completion_bind].
  specialize (IH (pre ++ [p]) c).
  rewrite <- app_assoc, length_app in IH. cbn [app length] in IH.
  replace (length pre + 1)%nat with (S (length pre)) in IH by lia.
  rewrite IH. cbn [mbind completion_bind mret completion_ret Spec.collapse_after].
  destruct (Spec.same_coord c p); reflexivity.
Qed.

Lemma filter_from_start (l : list Spec.lng_lat) :
  filter_from (Spec.coord_json <$> l) 0 (Spec.coord_json <$> l)
  = Normal (Spec.coord_json <$> Spec.dedup_adjacent l).
Proof.
  destruct l as [|c rest]; [reflexivity|].
  cbn [fmap list_fmap filter_from keep_coord Nat.eqb mbind completion_bind
       mret completion_ret].
  fold (fmap (M:=list) Spec.coord_json rest).
  pose proof (filter_from_after [] c rest) as H. cbn [app length fmap list_fmap] in H.
  fold (fmap (M:=list) Spec.coord_json rest) in H.
  rewrite H. reflexivity.
Qed.

Lemma mapM_to_point (l : list Spec.lng_lat) :
  mapM to_point (Spec.coord_json <$> l) = Normal (Spec.point_of <$> l).
Proof.
  induction l as [|c l IH]; [reflexivity|].
  cbn [fmap list_fmap mapM]. fold (fmap (M:=list) Spec.coord_json l).
  rewrite IH. reflexivity.
Qed.

(** Whether a coordinate stays depends on the one immediately before it
    only. *)
Lemma collapse_after_snoc (p a b : Spec.lng_lat) (l : list Spec.lng_lat) :
  Spec.collapse_after p (l ++ [a; b])
  = Spec.collapse_after p (l ++ [a]) ++ (if Spec.same_coord b a then [] else [b]).
Proof.
  revert p. induction l as [|c l IH]; intros p; cbn [app Spec.collapse_after].
  - destruct (Spec.same_coord a p), (Spec.same_coord b a); reflexivity.
  - rewrite IH. by destruct (Spec.same_coord c p).
Qed.

Lemma dedup_adjacent_snoc (a b : Spec.lng_lat) (l : list Spec.lng_lat) :
  Spec.dedup_adjacent (l ++ [a; b])
  = Spec.dedup_adjacent (l ++ [a]) ++ (if Spec.same_coord b a then [] else [b]).
Proof.
  destruct l as [|c l]; cbn [app Spec.dedup_adjacent Spec.collapse_after].
  - by destruct (Spec.same_coord b a).
  - by rewrite collapse_after_snoc.
Qed.

(** C7. When the service answers with one or more matched segments,
    [snapToRoad] returns the points of the segments' coordinate lists,
    concatenated in the order returned, with every coordinate equal (on both
    components) to the one immediately before it dropped. A coordinate that
    differs from the one immediately before it stays, whatever comes earlier:
    duplicates that are not adjacent are kept. The segments [[0,0],[0,1]] and
    [[0,1],[0,2]] give the three points [[0,0],[0,1],[0,2]]. *)
Theorem snapToRoad_matched :
  (forall (fixes : list obj) (status : Z) (data : value) (ms : list value)
          (segs : list (list Spec.lng_lat)),
      (2 <= length fixes)%nat ->
      transport (Spec.request_url ToString fixes) = HttpResponse status data ->
      200 <= status < 300 ->
      prop data "matchings" = VArr ms ->
      ms <> [] ->
      Forall2 Spec.is_matching ms segs ->
      snapToRoad ToString transport (VObj <$> fixes)
      = (Normal (Spec.point_of <$> Spec.dedup_adjacent (List.concat segs)),
         [Spec.request_url ToString fixes]))
  /\ (forall (l : list Spec.lng_lat) (a b : Spec.lng_lat),
        Spec.dedup_adjacent (l ++ [a; b])
        = Spec.dedup_adjacent (l ++ [a])
          ++ (if Spec.same_coord b a then [] else [b]))
  /\ Spec.dedup_adjacent (List.concat Examples.two_segments)
     = [(0, 0); (0, 1); (0, 2)]%float
  /\ Spec.dedup_adjacent [(0, 0); (0, 1); (0, 0); (0, 0); (0, 1)]%float
     = [(0, 0); (0, 1); (0, 0); (0, 1)]%float.
Proof.
  split; [|split; [intros; apply dedup_adjacent_snoc | split; reflexivity]].
  intros fixes status data ms segs Hlen Hresp Hstatus Hdata Hne Hms.
  rewrite snapToRoad_request by done. f_equal. f_equal.
  unfold axios_get. rewrite Hresp.
  replace ((200 <=? status) && (status <? 300)) with true
    by (symmetry; apply andb_true_iff; lia).
  cbn [mbind completion_bind]. unfold snapped_of_response.
  rewrite get_prop_response. cbn [mbind completion_bind].
  unfold get_prop. destruct (nullish data) eqn:Hnull.
  { destruct data; discriminate. }
  cbn [mbind completion_bind]. rewrite Hdata.
  cbn [ToBoolean negb orb length_is_zero].
  destruct ms as [|m ms]; [done|]. cbn [length Nat.eqb].
  rewrite (forEach_matching_ok [] _ segs Hms). cbn [app mbind completion_bind].
  rewrite filter_from_start. cbn [mbind completion_bind].
  by rewrite mapM_to_point.
Qed.

End RouteSnapping.

Lemma snapToRoad_fallback_witness :
  snapToRoad Examples.show_value Examples.unreachable
    [VObj Examples.fixA; VObj Examples.fixB]
  = (Normal [VObj Examples.fixA; VObj Examples.fixB],
     [Spec.request_url Examples.show_value [Examples.fixA; Examples.fixB]]).
Proof.
  apply (snapToRoad_fallback Examples.show_value Examples.unreachable
           [Examples.fixA; Examples.fixB]); [cbn; lia | reflexivity].
Defined.

(** C1, as stated, fails: on a transport failure the returned points are
    the input fixes, which carry a timestamp, a tracking id and an address
    besides latitude and longitude. *)
Lemma snapToRoad_fallback_not_stripped :
  (snapToRoad Examples.show_value Examples.unreachable
     [VObj Examples.fixA; VObj Examples.fixB]).1
  = Normal [VObj Examples.fixA; VObj Examples.fixB]
  /\ forallb Spec.only_lat_lng [VObj Examples.fixA; VObj Examples.fixB] = false.
Proof. split; vm_compute; reflexivity. Qed.

Lemma snapToRoad_matched_witness :
  snapToRoad Examples.show_value (Examples.matched Examples.two_segments)
    [VObj Examples.fixA; VObj Examples.fixB]
  = (Normal (Spec.point_of <$> [(0, 0); (0, 1); (0, 2)]%float),
     [Spec.request_url Examples.show_value [Examples.fixA; Examples.fixB]]).
Proof.
  apply (proj1 (snapToRoad_matched Examples.show_value
                  (Examples.matched Examples.two_segments))
           [Examples.fixA; Examples.fixB] 200
           (VObj {[ "code" := VStr "Ok";
                    "matchings" := VArr (Examples.segment_json <$> Examples.two_segments) ]})
           (Examples.segment_json <$> Examples.two_segments)
           Examples.two_segments).
  - cbn; lia.
  - reflexivity.
  - lia.
  - reflexivity.
  - discriminate.
  - repeat constructor; eexists; split; reflexivity.
Defined.

(** ** Calendar arithmetic *)

(** [lia] after replacing divisions by constants with their equations. *)
Ltac div_lia := Z.to_euclidean_division_equations; lia.

Section Calendar.

Lemma DaysInYear_cases (y : Z) : DaysInYear y = 365 \/ DaysInYear y = 366.
Proof.
  unfold DaysInYear.
  repeat match goal with |- context [if ?b then _ else _] => destruct b end; auto.
Qed.

Lemma DayFromYear_step (y : Z) : DayFromYear (y + 1) = DayFromYear y + DaysInYear y.
Proof.
  unfold DayFromYear, DaysInYear.
  repeat match goal with |- context [if ?b then _ else _] => destruct b eqn:? end;
    rewrite ?negb_true_iff, ?negb_false_iff, ?Z.eqb_eq, ?Z.eqb_neq in *; div_lia.
Qed.

Lemma DayFromYear_mono (y z : Z) : y <= z -> DayFromYear y <= DayFromYear z.
Proof. unfold DayFromYear. div_lia. Qed.

(** [YearFromTime t] is the largest year that starts at or before [t]. *)
Lemma YearFromTime_spec (t : Z) :
  DayFromYear (YearFromTime t) <= Day t < DayFromYear (YearFromTime t + 1).
Proof.
  unfold YearFromTime. cbv zeta.
  set (d := Day t). set (y := 1970 + 400 * d / 146097).
  assert (Hb : DayFromYear (y - 1) <= d < DayFromYear (y + 2)).
  { subst y. unfold DayFromYear. div_lia. }
  pose proof (DayFromYear_step (y + 1)) as H1.
  pose proof (DayFromYear_step (y - 1)) as H2.
  replace (y + 1 + 1) with (y + 2) in H1 by lia.
  replace (y - 1 + 1) with y in H2 by lia.
  destruct (Z.leb_spec (DayFromYear (y + 1)) d).
  - replace (y + 1 + 1) with (y + 2) by lia. lia.
  - destruct (Z.leb_spec (DayFromYear y) d).
    + lia.
    + replace (y - 1 + 1) with y by lia. lia.
Qed.

Lemma DayWithinYear_range (t : Z) :
  0 <= DayWithinYear t < 365 + InLeapYear t.
Proof.
  unfold DayWithinYear, InLeapYear.
  pose proof (YearFromTime_spec t) as H.
  rewrite DayFromYear_step in H.
  destruct (DaysInYear_cases (YearFromTime t)) as [E|E]; rewrite E in *;
    [change (365 =? 366) with false | change (366 =? 366) with true]; lia.
Qed.

Lemma InLeapYear_cases (t : Z) : InLeapYear t = 0 \/ InLeapYear t = 1.
Proof. unfold InLeapYear. destruct (_ =? _); auto. Qed.

Lemma MonthFromTime_range (t : Z) : 0 <= MonthFromTime t <= 11.
Proof.
  unfold MonthFromTime. cbv zeta.
  repeat match goal with |- context [if ?b then _ else _] => destruct b end; lia.
Qed.

Lemma DateFromTime_range (t : Z) : 1 <= DateFromTime t <= 31.
Proof.
  unfold DateFromTime, MonthFromTime. cbv zeta.
  pose proof (DayWithinYear_range t) as Hd.
  destruct (InLeapYear_cases t) as [E|E]; rewrite E in *;
    repeat match goal with
           | |- context [if ?a <? ?b then _ else _] => destruct (Z.ltb_spec a b)
           end; cbn [DaysBeforeMonth]; lia.
Qed.

(** The day numbered [d] of the month of [t] is [d - DateFromTime t] days
    from [t]'s day. *)
Lemma MakeDay_same_month (t d : Z) :
  MakeDay (YearFromTime t) (MonthFromTime t) d = Day t - DateFromTime t + d.
Proof.
  pose proof (MonthFromTime_range t) as Hm.
  unfold MakeDay. cbv zeta.
  replace (MonthFromTime t / 12) with 0 by div_lia.
  replace (MonthFromTime t mod 12) with (MonthFromTime t) by div_lia.
  rewrite Z.add_0_r. fold (InLeapYear t).
  unfold DateFromTime, DayWithinYear. lia.
Qed.


End Calendar.

(** ** Query range resolver *)

Ltac time_lia :=
  unfold Spec.far_from_limits, MakeDate, MakeTime, msPerDay, msPerHour, msPerMinute,
    msPerSecond in *; lia.

Lemma TimeClip_within (t : Z) :
  Z.abs t <= 8640000000000000 -> TimeClip t = Some t.
Proof.
  intros H. unfold TimeClip.
  by destruct (Z.leb_spec (Z.abs t) 8640000000000000); [|lia].
Qed.

Lemma Day_shift (t k : Z) : Day (t + k * msPerDay) = Day t + k.
Proof. unfold Day, msPerDay. div_lia. Qed.

Lemma Day_mono (x y : Z) : x <= y -> Day x <= Day y.
Proof. unfold Day, msPerDay. div_lia. Qed.

Lemma Day_MakeDate (day time : Z) :
  0 <= time < msPerDay -> Day (MakeDate day time) = day.
Proof. unfold Day, MakeDate, msPerDay. intros. div_lia. Qed.

Lemma MakeDate_split (t : Z) : MakeDate (Day t) (TimeWithinDay t) = t.
Proof. unfold MakeDate, Day, TimeWithinDay, msPerDay. div_lia. Qed.

Lemma TimeWithinDay_range (t : Z) : 0 <= TimeWithinDay t < msPerDay.
Proof. unfold TimeWithinDay, msPerDay. div_lia. Qed.

(** *** Any zone whose offsets stay within a day *)

Lemma DateFromTime_same_day (x y : Z) :
  Day x = Day y -> DateFromTime x = DateFromTime y.
Proof.
  intros H.
  unfold DateFromTime, MonthFromTime, InLeapYear, DayWithinYear, YearFromTime.
  by rewrite H.
Qed.


Section AnyZone.

Variable LocalTZA : Z -> bool -> Z.
Hypothesis bounded : Spec.offsets_within_a_day LocalTZA.

(** [setHours] asks for the given time of the date's own local day. *)
Lemma setHours_local (t hour min sec ms : Z) :
  Z.abs t <= 8640000000000000 - 3 * msPerDay ->
  0 <= MakeTime hour min sec ms < msPerDay ->
  setHours LocalTZA (Some t) hour min sec ms
  = Some (UTC LocalTZA (MakeDate (Day (LocalTime LocalTZA t)) (MakeTime hour min sec ms))).
Proof.
  intros Ht Htime. unfold setHours. cbn [mbind option_bind].
  apply TimeClip_within. unfold UTC, LocalTime.
  pose proof (bounded t true) as Ha.
  pose proof (bounded (MakeDate (Day (t + LocalTZA t true)) (MakeTime hour min sec ms))
                false) as Hb.
  revert Ha Hb Ht Htime. generalize (MakeTime hour min sec ms).
  generalize (LocalTZA t true). intros a mt. generalize (LocalTZA (MakeDate (Day (t + a)) mt) false).
  unfold MakeDate, Day, msPerDay. intros. div_lia.
Qed.

(** [setDate] asks for the day numbered [dt] of the date's local month, at
    the date's local time of day. *)
Lemma setDate_local (t dt : Z) :
  Z.abs t <= 8640000000000000 - 34 * msPerDay ->
  0 <= dt <= 31 ->
  setDate LocalTZA (Some t) (Some dt)
  = Some (UTC LocalTZA
            (MakeDate (Day (LocalTime LocalTZA t) - DateFromTime (LocalTime LocalTZA t) + dt)
               (TimeWithinDay (LocalTime LocalTZA t)))).
Proof.
  intros Ht Hdt. unfold setDate. cbn [mbind option_bind].
  rewrite MakeDay_same_month.
  apply TimeClip_within. unfold UTC.
  set (lt := LocalTime LocalTZA t).
  pose proof (DateFromTime_range lt) as Hd.
  pose proof (MakeDate_split lt) as Hsplit.
  pose proof (bounded t true) as Ha.
  pose proof (bounded (MakeDate (Day lt - DateFromTime lt + dt) (TimeWithinDay lt))
                false) as Hb.
  assert (Hlt : lt = t + LocalTZA t true) by reflexivity.
  revert Hb. generalize (LocalTZA (MakeDate (Day lt - DateFromTime lt + dt)
                                     (TimeWithinDay lt)) false).
  intros b Hb. unfold MakeDate, msPerDay in *. lia.
Qed.

(** What "yesterday" makes of a date read at [t], the day of the month
    having been read at [now]: the given time of the day asked for, when
    the date moved by [setDate] is read within the day asked for. *)
Lemma yesterday_local (now t hour min sec ms : Z) :
  let lt := LocalTime LocalTZA t in
  let day := Day lt - DateFromTime lt + (DateFromTime (LocalTime LocalTZA now) - 1) in
  Spec.far_from_limits t ->
  0 <= MakeTime hour min sec ms < msPerDay ->
  Day (LocalTime LocalTZA (UTC LocalTZA (MakeDate day (TimeWithinDay lt)))) = day ->
  setHours LocalTZA
    (setDate LocalTZA (Some t) (d ← getDate LocalTZA (Some now); Some (d - 1)))
    hour min sec ms
  = Some (UTC LocalTZA (MakeDate day (MakeTime hour min sec ms))).
Proof.
  cbv zeta. intros Ht Htime Hday.
  cbn [getDate mbind option_bind].
  set (lt := LocalTime LocalTZA t) in *.
  set (dn := DateFromTime (LocalTime LocalTZA now)) in *.
  pose proof (DateFromTime_range (LocalTime LocalTZA now)) as Hn. fold dn in Hn.
  pose proof (DateFromTime_range lt) as Hd.
  pose proof (TimeWithinDay_range lt) as Htwd.
  rewrite setDate_local by time_lia. fold lt.
  assert (Hrange :
      Z.abs (UTC LocalTZA (MakeDate (Day lt - DateFromTime lt + (dn - 1)) (TimeWithinDay lt)))
      <= 8640000000000000 - 3 * msPerDay).
  { unfold UTC.
    pose proof (bounded (MakeDate (Day lt - DateFromTime lt + (dn - 1)) (TimeWithinDay lt))
                  false) as Hb.
    pose proof (bounded t true) as Ha.
    pose proof (MakeDate_split lt) as Hsplit.
    assert (Hlt : lt = t + LocalTZA t true) by reflexivity.
    revert Hb.
    generalize (LocalTZA (MakeDate (Day lt - DateFromTime lt + (dn - 1)) (TimeWithinDay lt))
                  false).
    intros b Hb. time_lia. }
  rewrite setHours_local by (exact Hrange || exact Htime).
  by rewrite Hday.
Qed.

(** C8. When the three clock reads fall on one local day: if that day has
    its local midnight and its local 23:59:59.999, the preset "today"
    resolves to the range from the one to the other; and if the day before
    has them, and its local times are read within it, "yesterday" resolves
    to the same two times of the day before. Resolved on 2024-03-15 (month
    2 is March), "yesterday" is 2024-03-14 00:00:00.000 to 2024-03-14
    23:59:59.999 local time. *)
Theorem getDateRange_presets (clk : clock) :
  Spec.far_from_limits (read_start clk) ->
  Spec.far_from_limits (read_end clk) ->
  Spec.same_local_day LocalTZA clk ->
  let now := LocalTime LocalTZA (read_now clk) in
  let today := Day now in
  (Spec.day_has_its_bounds LocalTZA today ->
   exists s e,
     getDateRange LocalTZA clk (VStr "today") = {| start := Some s; end_ := Some e |}
     /\ LocalTime LocalTZA s = MakeDate today (MakeTime 0 0 0 0)
     /\ LocalTime LocalTZA e = MakeDate today (MakeTime 23 59 59 999))
  /\ (Spec.day_has_its_bounds LocalTZA (today - 1) ->
      Spec.read_within_day LocalTZA (today - 1) ->
      exists s e,
        getDateRange LocalTZA clk (VStr "yesterday")
        = {| start := Some s; end_ := Some e |}
        /\ LocalTime LocalTZA s = MakeDate (today - 1) (MakeTime 0 0 0 0)
        /\ LocalTime LocalTZA e = MakeDate (today - 1) (MakeTime 23 59 59 999)
        /\ ((YearFromTime now, MonthFromTime now, DateFromTime now) = (2024, 2, 15) ->
            Spec.calendar_fields (LocalTime LocalTZA s) = (2024, 2, 14, 0, 0, 0, 0)
            /\ Spec.calendar_fields (LocalTime LocalTZA e)
               = (2024, 2, 14, 23, 59, 59, 999))).
Proof.
  destruct clk as [tn ts te]. unfold Spec.same_local_day.
  cbn [read_now read_start read_end].
  intros Hs He [Hds Hde]. cbv zeta.
  set (lt := LocalTime LocalTZA tn) in *.
  split.
  - intros [Hfirst Hlast]. eexists _, _. split; [|split].
    + unfold getDateRange.
      cbn [strict_eq String.eqb Ascii.eqb Bool.eqb read_start read_end].
      rewrite !setHours_local by time_lia. rewrite Hds, Hde. reflexivity.
    + exact Hfirst.
    + exact Hlast.
  - intros [Hfirst Hlast] Hwithin.
    (* each date is moved to yesterday, at its own local time of day *)
    assert (Hmoved : forall t hour min sec ms,
        Spec.far_from_limits t ->
        Day (LocalTime LocalTZA t) = Day lt ->
        0 <= MakeTime hour min sec ms < msPerDay ->
        setHours LocalTZA
          (setDate LocalTZA (Some t) (d ← getDate LocalTZA (Some tn); Some (d - 1)))
          hour min sec ms
        = Some (UTC LocalTZA (MakeDate (Day lt - 1) (MakeTime hour min sec ms)))).
    { intros t hour min sec ms Ht Hd Htime.
      pose proof (TimeWithinDay_range (LocalTime LocalTZA t)) as Htwd.
      assert (Hday : Day (LocalTime LocalTZA t) - DateFromTime (LocalTime LocalTZA t)
                     + (DateFromTime (LocalTime LocalTZA tn) - 1) = Day lt - 1).
      { fold lt. rewrite (DateFromTime_same_day _ _ Hd). lia. }
      rewrite yesterday_local; rewrite ?Hday; try done.
      apply Hwithin. by apply Day_MakeDate. }
    eexists _, _. split; [|split; [|split]].
    + unfold getDateRange.
      cbn [strict_eq String.eqb Ascii.eqb Bool.eqb read_now read_start read_end].
      rewrite !Hmoved by (done || time_lia). reflexivity.
    + exact Hfirst.
    + exact Hlast.
    + intros Hymd. injection Hymd as Hy Hm Hd.
      assert (Hday : Day lt = 19797).
      { pose proof (MakeDay_same_month lt 15) as H.
        rewrite Hy, Hm, Hd in H. change (MakeDay 2024 2 15) with 19797 in H. lia. }
      rewrite Hfirst, Hlast, Hday.
      split; vm_compute; reflexivity.
Qed.

End AnyZone.

(** *** A zone whose days keep in step with time *)

Section RegularZone.

Variable LocalTZA : Z -> bool -> Z.
Hypothesis bounded : Spec.offsets_within_a_day LocalTZA.
Hypothesis apart : Spec.offsets_less_than_a_day_apart LocalTZA.
Hypothesis forward : Spec.local_day_never_goes_back LocalTZA.
Hypothesis within : Spec.read_within_its_day LocalTZA.



End RegularZone.

(** *** The zones these results cover *)

Section FixedZone.

Variable LocalTZA : Z -> bool -> Z.
Variable offset : Z.
Hypothesis zone : Spec.fixed_offset LocalTZA offset.

Lemma fixed_apart : Spec.offsets_less_than_a_day_apart LocalTZA.
Proof. intros t1 b1 t2 b2. rewrite !zone. unfold msPerDay. lia. Qed.

Lemma fixed_forward : Spec.local_day_never_goes_back LocalTZA.
Proof. intros u v Huv. unfold LocalTime. rewrite !zone. apply Day_mono. lia. Qed.

Lemma fixed_within : Spec.read_within_its_day LocalTZA.
Proof. intros d x <-. unfold LocalTime, UTC. rewrite !zone. f_equal. lia. Qed.

Lemma fixed_day_bounds (d : Z) : Spec.day_has_its_bounds LocalTZA d.
Proof. split; unfold LocalTime, UTC; rewrite !zone; lia. Qed.

End FixedZone.

Lemma ist_fixed : Spec.fixed_offset Examples.ist 19800000.
Proof. by intros t isUTC. Qed.

Lemma ist_bounded : Spec.offsets_within_a_day Examples.ist.
Proof. intros t isUTC. unfold Examples.ist, msPerDay. lia. Qed.

Lemma mid_morning_far (k : Z) :
  0 <= k <= 2 -> Spec.far_from_limits (Examples.mid_morning + k).
Proof. unfold Spec.far_from_limits, Examples.mid_morning, msPerDay. lia. Qed.






Lemma getDateRange_presets_witness :
  exists s e,
    getDateRange Examples.ist (Examples.ticking Examples.mid_morning) (VStr "yesterday")
      = {| start := Some s; end_ := Some e |}
    /\ Spec.calendar_fields (LocalTime Examples.ist s) = (2024, 2, 14, 0, 0, 0, 0)
    /\ Spec.calendar_fields (LocalTime Examples.ist e) = (2024, 2, 14, 23, 59, 59, 999).
Proof.
  destruct (proj2 (getDateRange_presets Examples.ist ist_bounded
                     (Examples.ticking Examples.mid_morning)
                     (mid_morning_far 1 ltac:(lia)) (mid_morning_far 2 ltac:(lia))
                     (conj eq_refl eq_refl))
             (fixed_day_bounds Examples.ist 19800000 ist_fixed _)
             (fixed_within Examples.ist 19800000 ist_fixed _))
    as (s & e & Hrange & _ & _ & Hfields).
  exists s, e. split; [exact Hrange|]. apply Hfields. vm_compute. reflexivity.
Defined.

(** C8, as stated, fails. In Sao Paulo on 4 November 2018 the clocks went
    from 00:00 to 01:00, so that day has no local midnight: resolved at
    13:00 local time of that day, "today" starts at 01:00:00.000 local
    time, the first instant of the day. *)
Lemma getDateRange_presets_skipped_midnight :
  Spec.calendar_fields (LocalTime Examples.sao_paulo Examples.sao_paulo_afternoon)
  = (2018, 10, 4, 13, 0, 0, 0)
  /\ start (getDateRange Examples.sao_paulo
              (Examples.same_instant Examples.sao_paulo_afternoon) (VStr "today"))
     = Some 1541300400000
  /\ Spec.calendar_fields (LocalTime Examples.sao_paulo 1541300400000)
     = (2018, 10, 4, 1, 0, 0, 0)
  /\ LocalTime Examples.sao_paulo 1541300400000
     <> MakeDate (Day (LocalTime Examples.sao_paulo Examples.sao_paulo_afternoon))
          (MakeTime 0 0 0 0).
Proof. repeat split; try (vm_compute; reflexivity). vm_compute. discriminate. Qed.

(** The day after, 5 November 2018, has its midnight again: "today" is
    covered there, "yesterday" is not. *)
Lemma sao_paulo_day_after :
  Spec.day_has_its_bounds Examples.sao_paulo
    (Day (LocalTime Examples.sao_paulo Examples.sao_paulo_afternoon) + 1)
  /\ ~ Spec.day_has_its_bounds Examples.sao_paulo
        (Day (LocalTime Examples.sao_paulo Examples.sao_paulo_afternoon)).
Proof.
  split; [split; vm_compute; reflexivity|].
  intros [Hfirst _]. vm_compute in Hfirst. discriminate.
Qed.

(** The reads of one call on two local days: the day of the month is read
    at 23:59:59.999 of 31 March 2024, the dates to move a millisecond
    later, on 1 April. "yesterday" is then 30 April. *)
Lemma getDateRange_reads_over_midnight :
  exists s e,
    getDateRange Examples.ist Examples.over_midnight (VStr "yesterday")
    = {| start := Some s; end_ := Some e |}
    /\ Spec.calendar_fields (LocalTime Examples.ist Examples.month_end)
       = (2024, 2, 31, 23, 59, 59, 999)
    /\ Spec.calendar_fields (LocalTime Examples.ist s) = (2024, 3, 30, 0, 0, 0, 0)
    /\ Spec.calendar_fields (LocalTime Examples.ist e) = (2024, 3, 30, 23, 59, 59, 999).
Proof.
  eexists _, _. split; [by vm_compute|]. repeat split; vm_compute; reflexivity.
Qed.

(** At the last instant a [Date] can hold, 23:59:59.999 of the local day
    is out of range: the end of "today" is an invalid date. *)
Lemma getDateRange_at_last_instant :
  end_ (getDateRange Examples.ist (Examples.same_instant Examples.last_instant)
          (VStr "today"))
  = None.
Proof. vm_compute. reflexivity. Qed.



(** * Further properties of the code *)

(** ** [snapToRoad]: what it settles to, whatever the service answers *)

Section SnapToRoadShapes.

Variable ToString : value -> string.
Variable transport : string -> transport_outcome.

Lemma lat_lng_point_made (lat lng : value) :
  Notions.lat_lng_point (VObj {[ "latitude" := lat; "longitude" := lng ]}) = true.
Proof.
  unfold Notions.lat_lng_point. apply bool_decide_eq_true.
  by rewrite dom_insert_L, dom_singleton_L.
Qed.

Lemma to_point_shape (c p : value) :
  to_point c = Normal p -> Notions.lat_lng_point p = true.
Proof.
  unfold to_point. destruct (destructure2 c) as [[x y]|];
    cbn [mbind completion_bind mret completion_ret]; [|discriminate].
  intros [= <-]. apply lat_lng_point_made.
Qed.

Lemma mapM_to_point_shape (l r : list value) :
  mapM to_point l = Normal r ->
  Forall (fun p => Notions.lat_lng_point p = true) r.
Proof.
  revert r. induction l as [|c l IH]; intros r H; cbn [mapM] in H.
  - injection H as <-. constructor.
  - destruct (to_point c) as [p|] eqn:Hp;
      cbn [mbind completion_bind mret completion_ret] in H; [|discriminate].
    destruct (mapM to_point l) as [ys|];
      cbn [mbind completion_bind mret completion_ret] in H; [|discriminate].
    injection H as <-.
    constructor; [by eapply to_point_shape | by apply IH].
Qed.

(** The [try] block yields the input coordinates or freshly made points. *)
Lemma snapped_of_response_shape (coords r : list value) (response : value) :
  snapped_of_response coords response = Normal r ->
  r = coords \/ Forall (fun p => Notions.lat_lng_point p = true) r.
Proof.
  unfold snapped_of_response. intros H.
  destruct (get_prop response "data") as [data|];
    cbn [mbind completion_bind] in H; [|discriminate].
  destruct (get_prop data "matchings") as [matchings|];
    cbn [mbind completion_bind] in H; [|discriminate].
  destruct (negb (ToBoolean matchings) || length_is_zero matchings).
  - injection H as <-. by left.
  - destruct matchings as [| | | | |ms|]; try discriminate.
    destruct (forEach_matching [] ms) as [allCoords|];
      cbn [mbind completion_bind] in H; [|discriminate].
    destruct (filter_from allCoords 0 allCoords) as [uniqueCoords|];
      cbn [mbind completion_bind] in H; [|discriminate].
    right. by eapply mapM_to_point_shape.
Qed.

Lemma snapToRoad_resolves (fixes : list obj) :
  exists (r : list value) (requests : list string),
    snapToRoad ToString transport (VObj <$> fixes) = (Normal r, requests)
    /\ (length requests <= 1)%nat
    /\ (r = VObj <$> fixes \/ Forall (fun p => Notions.lat_lng_point p = true) r).
Proof.
  destruct (Nat.lt_ge_cases (length fixes) 2) as [Hshort|Hlong].
  - exists (VObj <$> fixes), []. split; [|split; [cbn; lia | by left]].
    unfold snapToRoad. rewrite length_fmap.
    by destruct (Nat.ltb_spec (length fixes) 2); [|lia].
  - rewrite snapToRoad_request by done.
    eexists _, _. split; [reflexivity|]. split; [cbn; lia|].
    destruct (axios_get transport _) as [response|]; [|by left].
    cbn [mbind completion_bind].
    destruct (snapped_of_response _ response) as [r|] eqn:Hr; [|by left].
    cbn [try_catch]. by apply snapped_of_response_shape in Hr.
Qed.

(** X1. Given fixes (objects), [snapToRoad] never rejects, whatever the
    transport does and whatever the response holds: it sends at most one
    request and resolves either to its input or to a list of points whose
    own keys are exactly [latitude] and [longitude]. *)
Theorem snapToRoad_settles (fixes : list obj) :
  exists (r : list value) (requests : list string),
    snapToRoad ToString transport (VObj <$> fixes) = (Normal r, requests)
    /\ (length requests <= 1)%nat
    /\ (r = VObj <$> fixes \/ Forall (fun p => Notions.lat_lng_point p = true) r).
Proof.
  exact (snapToRoad_resolves fixes).
Qed.

Lemma coord_pair_throws (p : value) :
  nullish p = true -> coord_pair ToString p = Throw TypeError.
Proof. intros H. unfold coord_pair, get_prop. by rewrite H. Qed.

Lemma mapM_coord_pair_throws (coords : list value) :
  Exists (fun p => nullish p = true) coords ->
  exists e, mapM (coord_pair ToString) coords = Throw e.
Proof.
  induction coords as [|p coords IH]; intros H; [by inversion H|].
  cbn [mapM]. destruct (coord_pair ToString p) as [s|e] eqn:Hp; [|by exists e].
  cbn [mbind completion_bind].
  destruct IH as [e He].
  - inversion H as [? ? Hnull|]; [|done]. by rewrite coord_pair_throws in Hp.
  - rewrite He. by exists e.
Qed.

(** X2. The coordinate string is built before the [try] block: given two
    or more elements one of which is [null] or [undefined], [snapToRoad]
    rejects, and no request is sent. *)
Theorem snapToRoad_rejects_missing_point (coords : list value) :
  (2 <= length coords)%nat ->
  Exists (fun p => nullish p = true) coords ->
  exists e, snapToRoad ToString transport coords = (Throw e, []).
Proof.
  intros Hlen Hnull. unfold snapToRoad.
  destruct (Nat.ltb_spec (length coords) 2); [lia|].
  destruct (mapM_coord_pair_throws coords Hnull) as [e ->]. by exists e.
Qed.

Lemma add_matching_any (allCoords : list value) (m : value) (seg : list Spec.lng_lat) :
  Notions.contributes m seg ->
  add_matching allCoords m = Normal (allCoords ++ (Spec.coord_json <$> seg)).
Proof.
  intros [Hm | [Hlack ->]]; [by apply add_matching_ok|].
  unfold Notions.lacks_geometry in Hlack.
  apply andb_true_iff in Hlack as [Hnull Hgeo]. apply negb_true_iff in Hnull.
  unfold add_matching, get_prop. rewrite Hnull. cbn [mbind completion_bind].
  rewrite app_nil_r.
  destruct (ToBoolean (prop m "geometry")); [|reflexivity].
  cbn [negb orb] in Hgeo. apply negb_true_iff in Hgeo. by rewrite Hgeo.
Qed.

Lemma forEach_matching_any (allCoords ms : list value) (segs : list (list Spec.lng_lat)) :
  Forall2 Notions.contributes ms segs ->
  forEach_matching allCoords ms
  = Normal (allCoords ++ (Spec.coord_json <$> List.concat segs)).
Proof.
  intros H. revert allCoords.
  induction H as [|m seg ms segs Hm _ IH]; intros allCoords.
  - cbn. by rewrite app_nil_r.
  - cbn [forEach_matching List.concat]. rewrite (add_matching_any _ _ _ Hm).
    cbn [mbind completion_bind]. rewrite IH, fmap_app. by rewrite <- app_assoc.
Qed.

(** What [snapToRoad] resolves to on a well-formed answer, matchings
    without geometry included. *)
Lemma snapToRoad_points (fixes : list obj) (status : Z) (data : value)
    (ms : list value) (segs : list (list Spec.lng_lat)) :
  (2 <= length fixes)%nat ->
  transport (Spec.request_url ToString fixes) = HttpResponse status data ->
  200 <= status < 300 ->
  prop data "matchings" = VArr ms ->
  ms <> [] ->
  Forall2 Notions.contributes ms segs ->
  snapToRoad ToString transport (VObj <$> fixes)
  = (Normal (Spec.point_of <$> Spec.dedup_adjacent (List.concat segs)),
     [Spec.request_url ToString fixes]).
Proof.
  intros Hlen Hresp Hstatus Hdata Hne Hms.
  rewrite snapToRoad_request by done. f_equal. f_equal.
  unfold axios_get. rewrite Hresp.
  replace ((200 <=? status) && (status <? 300)) with true
    by (symmetry; apply andb_true_iff; lia).
  cbn [mbind completion_bind]. unfold snapped_of_response.
  rewrite get_prop_response. cbn [mbind completion_bind].
  unfold get_prop. destruct (nullish data) eqn:Hnull.
  { destruct data; discriminate. }
  cbn [mbind completion_bind]. rewrite Hdata.
  cbn [ToBoolean negb orb length_is_zero].
  destruct ms as [|m ms]; [done|]. cbn [length Nat.eqb].
  rewrite (forEach_matching_any [] _ segs Hms). cbn [app mbind completion_bind].
  rewrite filter_from_start. cbn [mbind completion_bind].
  by rewrite mapM_to_point.
Qed.

(** X3. A matching without geometry (or whose geometry has no coordinates)
    is passed over: it contributes no point and the other matchings count
    as before. When no matching of a non-empty list has geometry, the result
    is the empty list of points, not the input coordinates. *)
Theorem snapToRoad_passes_over (fixes : list obj) (status : Z) (data : value)
    (ms : list value) (segs : list (list Spec.lng_lat)) :
  (2 <= length fixes)%nat ->
  transport (Spec.request_url ToString fixes) = HttpResponse status data ->
  200 <= status < 300 ->
  prop data "matchings" = VArr ms ->
  ms <> [] ->
  Forall2 Notions.contributes ms segs ->
  snapToRoad ToString transport (VObj <$> fixes)
  = (Normal (Spec.point_of <$> Spec.dedup_adjacent (List.concat segs)),
     [Spec.request_url ToString fixes])
  /\ (Forall (fun m => Notions.lacks_geometry m = true) ms ->
      snapToRoad ToString transport (VObj <$> fixes)
      = (Normal [], [Spec.request_url ToString fixes])).
Proof.
  intros Hlen Hresp Hstatus Hdata Hne Hms.
  split; [by eapply snapToRoad_points|].
  intros Hall.
  assert (Hnone : Forall2 Notions.contributes ms (replicate (length ms) [])).
  { clear -Hall. induction Hall as [|m ms Hm _ IH]; [constructor|].
    cbn [length replicate]. constructor; [by right | exact IH]. }
  rewrite (snapToRoad_points fixes status data ms _ Hlen Hresp Hstatus Hdata Hne Hnone).
  assert (Hempty : forall n, List.concat (replicate n ([] : list Spec.lng_lat)) = []).
  { induction n; [reflexivity | done]. }
  by rewrite Hempty.
Qed.

Lemma add_matching_throws (allCoords : list value) (m : value) :
  nullish m = true -> add_matching allCoords m = Throw TypeError.
Proof. intros H. unfold add_matching, get_prop. by rewrite H. Qed.

Lemma forEach_matching_throws (allCoords ms : list value) :
  Exists (fun m => nullish m = true) ms ->
  exists e, forEach_matching allCoords ms = Throw e.
Proof.
  revert allCoords. induction ms as [|m ms IH]; intros allCoords H; [by inversion H|].
  cbn [forEach_matching].
  destruct (add_matching allCoords m) as [acc|e] eqn:Hm; [|by exists e].
  cbn [mbind completion_bind]. apply IH.
  inversion H as [? ? Hnull|]; [|done]. by rewrite add_matching_throws in Hm.
Qed.

(** X4. A malformed answer falls back to the input, whatever the status:
    when [matchings] is not an array, or is an array one of whose elements
    is [null] or [undefined] (matched segments beside it are discarded),
    [snapToRoad] resolves to the input fixes. *)
Theorem snapToRoad_malformed (fixes : list obj) (status : Z) (data : value) :
  (2 <= length fixes)%nat ->
  transport (Spec.request_url ToString fixes) = HttpResponse status data ->
  isArray (prop data "matchings") = false
  \/ (exists ms, prop data "matchings" = VArr ms
                 /\ Exists (fun m => nullish m = true) ms) ->
  snapToRoad ToString transport (VObj <$> fixes)
  = (Normal (VObj <$> fixes), [Spec.request_url ToString fixes]).
Proof.
  intros Hlen Hresp Hbad. rewrite snapToRoad_request by done. f_equal. f_equal.
  unfold axios_get. rewrite Hresp.
  destruct ((200 <=? status) && (status <? 300)); [|reflexivity].
  cbn [mbind completion_bind]. unfold snapped_of_response.
  rewrite get_prop_response. cbn [mbind completion_bind].
  unfold get_prop. destruct (nullish data); [reflexivity|].
  cbn [mbind completion_bind].
  destruct Hbad as [Hnot | (ms & -> & Hnull)].
  - destruct (prop data "matchings") as [| | | | |ms|]; try done;
      by destruct (_ || _).
  - cbn [ToBoolean negb orb length_is_zero].
    destruct (Nat.eqb (length ms) 0); [reflexivity|].
    by destruct (forEach_matching_throws [] ms Hnull) as [e ->].
Qed.

End SnapToRoadShapes.

Lemma snapToRoad_rejects_missing_point_witness :
  exists e,
    snapToRoad Examples.show_value Examples.unreachable [VObj Examples.fixA; VNull]
    = (Throw e, []).
Proof.
  apply (snapToRoad_rejects_missing_point Examples.show_value Examples.unreachable
           [VObj Examples.fixA; VNull]); [cbn; lia|].
  apply Exists_cons_tl, Exists_cons_hd. reflexivity.
Defined.

Lemma snapToRoad_passes_over_witness :
  snapToRoad Examples.show_value (Samples.answers Samples.with_gap)
    [VObj Examples.fixA; VObj Examples.fixB]
  = (Normal (Spec.point_of <$> [(0, 0); (0, 1); (0, 2)]%float),
     [Spec.request_url Examples.show_value [Examples.fixA; Examples.fixB]]).
Proof.
  refine (proj1 (snapToRoad_passes_over Examples.show_value
                   (Samples.answers Samples.with_gap)
                   [Examples.fixA; Examples.fixB] 200
                   (VObj {[ "matchings" := VArr Samples.with_gap ]})
                   Samples.with_gap
                   [[(0, 0); (0, 1)]; []; [(0, 1); (0, 2)]]%float _ _ _ _ _ _)).
  - cbn; lia.
  - reflexivity.
  - lia.
  - reflexivity.
  - discriminate.
  - apply List.Forall2_cons; [left; eexists; split; reflexivity|].
    apply List.Forall2_cons; [right; split; reflexivity|].
    apply List.Forall2_cons; [left; eexists; split; reflexivity|].
    apply List.Forall2_nil.
Defined.

Lemma snapToRoad_malformed_witness :
  snapToRoad Examples.show_value (Samples.answers Samples.with_null)
    [VObj Examples.fixA; VObj Examples.fixB]
  = (Normal [VObj Examples.fixA; VObj Examples.fixB],
     [Spec.request_url Examples.show_value [Examples.fixA; Examples.fixB]]).
Proof.
  refine (snapToRoad_malformed Examples.show_value (Samples.answers Samples.with_null)
            [Examples.fixA; Examples.fixB] 200
            (VObj {[ "matchings" := VArr Samples.with_null ]}) _ _ _).
  - cbn; lia.
  - reflexivity.
  - right. exists Samples.with_null. split; [reflexivity|].
    apply Exists_cons_tl, Exists_cons_hd. reflexivity.
Defined.

(** ** The snapped line has no repeated point *)

(** Numbers equal under [===] compare alike with every number. *)
Lemma SFcompare_Eq (a b : spec_float) :
  SFcompare a b = Some Eq -> forall x, SFcompare x a = SFcompare x b.
Proof.
  destruct a as [sa|sa| |sa ma ea], b as [sb|sb| |sb mb eb]; cbn; intros H x;
    try discriminate; try (destruct sa; discriminate); try (destruct sb; discriminate).
  - by destruct x.
  - destruct sa, sb; try discriminate; reflexivity.
  - destruct sa, sb; try discriminate.
    + destruct (Z.compare_spec ea eb) as [->| |]; try discriminate.
      injection H as H. apply (f_equal CompOpp) in H. rewrite CompOpp_involutive in H.
      cbn in H. apply Pos.compare_eq in H as ->. reflexivity.
    + destruct (Z.compare_spec ea eb) as [->| |]; try discriminate.
      injection H as H. apply Pos.compare_eq in H as ->. reflexivity.
Qed.

Lemma float_eqb_indistinguishable (a b : float) :
  (a =? b)%float = true -> forall x, (x =? a)%float = (x =? b)%float.
Proof.
  rewrite FloatAxioms.eqb_spec. unfold SFeqb. intros H x.
  rewrite !FloatAxioms.eqb_spec. unfold SFeqb.
  destruct (SFcompare (Prim2SF a) (Prim2SF b)) as [[| |]|] eqn:Hc; try discriminate.
  by rewrite (SFcompare_Eq _ _ Hc).
Qed.

Section NoRepeatedPoint.

(** [p] and [q] are told apart by no coordinate. *)
Let alike (p q : Spec.lng_lat) : Prop :=
  forall x, Spec.same_coord x p = Spec.same_coord x q.

Lemma same_coord_alike (c p : Spec.lng_lat) :
  Spec.same_coord c p = true -> alike c p.
Proof.
  intros H x. unfold Spec.same_coord in *. apply andb_true_iff in H as [H1 H2].
  by rewrite (float_eqb_indistinguishable _ _ H1), (float_eqb_indistinguishable _ _ H2).
Qed.

Lemma collapse_after_differs (l : list Spec.lng_lat) (p q : Spec.lng_lat) :
  alike p q -> Notions.each_differs q (Spec.collapse_after p l).
Proof.
  revert p q. induction l as [|c l IH]; intros p q Hpq; [exact I|].
  cbn [Spec.collapse_after]. destruct (Spec.same_coord c p) eqn:Hc.
  - apply IH. intros x. rewrite (same_coord_alike _ _ Hc x). apply Hpq.
  - cbn [Notions.each_differs]. split; [by rewrite <- Hpq | by apply IH].
Qed.

Lemma each_differs_lookup (l : list Spec.lng_lat) (prev : Spec.lng_lat) :
  Notions.each_differs prev l -> Notions.no_adjacent_equal (prev :: l).
Proof.
  revert prev. induction l as [|c l IH]; intros prev H i a b Ha Hb.
  - by destruct i.
  - destruct H as [Hc Hrest]. destruct i as [|i].
    + cbn in Ha, Hb. by simplify_eq.
    + by apply (IH c Hrest i a b).
Qed.

Lemma dedup_adjacent_no_adjacent_equal (l : list Spec.lng_lat) :
  Notions.no_adjacent_equal (Spec.dedup_adjacent l).
Proof.
  destruct l as [|c l]; [by intros []|].
  cbn [Spec.dedup_adjacent]. apply each_differs_lookup.
  by apply collapse_after_differs.
Qed.

Lemma collapse_after_sublist (l : list Spec.lng_lat) (p : Spec.lng_lat) :
  sublist (Spec.collapse_after p l) l.
Proof.
  revert p. induction l as [|c l IH]; intros p; [constructor|].
  cbn [Spec.collapse_after]. destruct (Spec.same_coord c p).
  - by apply sublist_cons.
  - by apply sublist_skip.
Qed.

Lemma dedup_adjacent_sublist (l : list Spec.lng_lat) :
  sublist (Spec.dedup_adjacent l) l.
Proof.
  destruct l as [|c l]; [constructor|].
  cbn [Spec.dedup_adjacent]. apply sublist_skip, collapse_after_sublist.
Qed.

Variable ToString : value -> string.
Variable transport : string -> transport_outcome.

(** X5. On a well-formed answer the points [snapToRoad] returns are taken
    from the concatenated coordinates without reordering or invention (a
    sublist starting with the same coordinate), and no point equals, on both
    components, the point right before it: the line has no zero-length
    piece. *)
Theorem snapToRoad_no_repeated_point (fixes : list obj) (status : Z) (data : value)
    (ms : list value) (segs : list (list Spec.lng_lat)) :
  (2 <= length fixes)%nat ->
  transport (Spec.request_url ToString fixes) = HttpResponse status data ->
  200 <= status < 300 ->
  prop data "matchings" = VArr ms ->
  ms <> [] ->
  Forall2 Notions.contributes ms segs ->
  exists r : list Spec.lng_lat,
    snapToRoad ToString transport (VObj <$> fixes)
    = (Normal (Spec.point_of <$> r), [Spec.request_url ToString fixes])
    /\ Notions.no_adjacent_equal r
    /\ sublist r (List.concat segs)
    /\ head r = head (List.concat segs).
Proof.
  intros Hlen Hresp Hstatus Hdata Hne Hms.
  exists (Spec.dedup_adjacent (List.concat segs)).
  split; [by eapply snapToRoad_points|].
  split; [apply dedup_adjacent_no_adjacent_equal|].
  split; [apply dedup_adjacent_sublist|].
  by destruct (List.concat segs).
Qed.

End NoRepeatedPoint.

Lemma snapToRoad_no_repeated_point_witness :
  exists r : list Spec.lng_lat,
    snapToRoad Examples.show_value (Examples.matched Examples.two_segments)
      [VObj Examples.fixA; VObj Examples.fixB]
    = (Normal (Spec.point_of <$> r),
       [Spec.request_url Examples.show_value [Examples.fixA; Examples.fixB]])
    /\ Notions.no_adjacent_equal r
    /\ sublist r (List.concat Examples.two_segments)
    /\ head r = head (List.concat Examples.two_segments).
Proof.
  refine (snapToRoad_no_repeated_point Examples.show_value
            (Examples.matched Examples.two_segments)
            [Examples.fixA; Examples.fixB] 200
            (VObj {[ "code" := VStr "Ok";
                     "matchings" := VArr (Examples.segment_json <$> Examples.two_segments) ]})
            (Examples.segment_json <$> Examples.two_segments)
            Examples.two_segments _ _ _ _ _ _).
  - cbn; lia.
  - reflexivity.
  - lia.
  - reflexivity.
  - discriminate.
  - apply List.Forall2_cons; [left; eexists; split; reflexivity|].
    apply List.Forall2_cons; [left; eexists; split; reflexivity|].
    apply List.Forall2_nil.
Defined.

(** ** Drawing the line *)

Section Polyline.

Variable ToString : value -> string.
Variable transport : string -> transport_outcome.

Lemma get_prop_defined (p : value) (k : string) :
  nullish p = false -> get_prop p k = Normal (prop p k).
Proof. intros H. unfold get_prop. by rewrite H. Qed.

Lemma polylinePositions_defined (r : list value) :
  Forall (fun p => nullish p = false) r ->
  exists ps, AppView.polylinePositions r = Normal ps /\ length ps = length r.
Proof.
  unfold AppView.polylinePositions.
  induction 1 as [|p r Hp _ (ps & IH & Hlen)]; [by exists []|].
  cbn [mapM]. rewrite !(get_prop_defined p) by done. cbn [mbind completion_bind].
  rewrite IH. cbn [mbind completion_bind mret completion_ret].
  eexists. split; [reflexivity|]. cbn. by rewrite Hlen.
Qed.

Lemma polylinePositions_points (l : list Spec.lng_lat) :
  AppView.polylinePositions (Spec.point_of <$> l) = Normal (Notions.position_of <$> l).
Proof.
  unfold AppView.polylinePositions.
  induction l as [|c l IH]; [reflexivity|].
  cbn [fmap list_fmap mapM]. fold (fmap (M:=list) Spec.point_of l).
  rewrite IH, !(get_prop_defined (Spec.point_of c)) by done.
  unfold Spec.point_of. cbn [prop].
  rewrite lookup_insert_eq, lookup_insert_ne, lookup_singleton_eq by done.
  reflexivity.
Qed.

(** X6. Whatever [snapToRoad] resolves to for a sequence of fixes, making
    the polyline positions of it never throws and gives one position per
    point. A coordinate [[lng, lat]] of the service ends as the position
    [[lat, lng]]. *)
Theorem polylinePositions_of_snapped :
  (forall fixes : list obj,
      exists (r : list value) (requests : list string) (ps : list value),
        snapToRoad ToString transport (VObj <$> fixes) = (Normal r, requests)
        /\ AppView.polylinePositions r = Normal ps
        /\ length ps = length r)
  /\ (forall l : list Spec.lng_lat,
        mapM to_point (Spec.coord_json <$> l) ≫= AppView.polylinePositions
        = Normal (Notions.position_of <$> l)).
Proof.
  split.
  - intros fixes.
    destruct (snapToRoad_resolves ToString transport fixes)
      as (r & requests & Hsnap & _ & Hshape).
    destruct (polylinePositions_defined r) as (ps & Hps & Hlen).
    { destruct Hshape as [-> | Hpts].
      - apply Forall_fmap, Forall_forall. by intros.
      - eapply Forall_impl; [exact Hpts|]. by intros [].
    }
    by exists r, requests, ps.
  - intros l. rewrite mapM_to_point. cbn [mbind completion_bind].
    apply polylinePositions_points.
Qed.

End Polyline.

(** ** The valid points and what is derived from them *)

Section DerivedState.

Variable haversine : obj -> obj -> obj -> float.
Variable new_Date : value -> float.
Variable Number_toString : float -> string.
Variable ToString : value -> string.
Variable transport : string -> transport_outcome.

Lemma valid_point_numeric (pt : obj) :
  AppView.valid_point pt = true -> Spec.has_numeric_position (VObj pt) = true.
Proof.
  unfold AppView.valid_point, Spec.has_numeric_position.
  by intros [[H _]%andb_true_iff _]%andb_true_iff.
Qed.

Lemma valid_point_no_NaN (pt : obj) :
  AppView.valid_point pt = true -> Spec.has_NaN_coordinate pt = false.
Proof.
  unfold AppView.valid_point, Spec.has_NaN_coordinate, AppView.isNaN, Spec.is_NaN.
  intros [[_ H1%negb_true_iff]%andb_true_iff H2%negb_true_iff]%andb_true_iff.
  by rewrite H1, H2.
Qed.

Lemma filter_valid (rows : list obj) :
  Forall (fun pt => AppView.valid_point pt = true) (List.filter AppView.valid_point rows).
Proof. apply Forall_forall. by intros pt [_ H]%list_elem_of_In%filter_In. Qed.

(** On valid points the guard of the distance loop never fires. *)
Lemma pair_distances_valid (fixes : list obj) :
  Forall (fun pt => AppView.valid_point pt = true) fixes ->
  Spec.pair_distances haversine (VObj <$> fixes)
  = Notions.all_pair_distances haversine fixes.
Proof.
  unfold Notions.all_pair_distances.
  induction 1 as [|a fixes Ha Hrest IH]; [reflexivity|].
  destruct Hrest as [|b fixes Hb Hrest]; [reflexivity|].
  change (Spec.pair_distances haversine (VObj <$> a :: b :: fixes)) with
    ((if Spec.has_numeric_position (VObj a) && Spec.has_numeric_position (VObj b)
      then [haversine (lat_lng_of (VObj a)) (lat_lng_of (VObj b)) unit_km] else [])
     ++ Spec.pair_distances haversine (VObj <$> b :: fixes)).
  rewrite IH, (valid_point_numeric a Ha), (valid_point_numeric b Hb). reflexivity.
Qed.

(** X7. On the points that pass the validity filter no pair is skipped:
    the total is the sum, from left to right, of the distances of all N-1
    consecutive pairs, formatted by [toFixed(2)] ("0.00" when there are
    fewer than two points). *)
Theorem calculateTotalDistance_valid (rows : list obj) :
  let validCoords := List.filter AppView.valid_point rows in
  calculateTotalDistance haversine Number_toString (VArr (VObj <$> validCoords))
  = toFixed2 Number_toString
      (fold_left PrimFloat.add (Notions.all_pair_distances haversine validCoords) 0%float)
  /\ length (Notions.all_pair_distances haversine validCoords)
     = (length validCoords - 1)%nat.
Proof.
  cbv zeta. set (v := List.filter AppView.valid_point rows).
  assert (Hv : Forall (fun pt => AppView.valid_point pt = true) v) by apply filter_valid.
  split.
  - rewrite calculateTotalDistance_array. unfold Spec.totalDistance.
    rewrite pair_distances_valid by done. rewrite length_fmap.
    destruct v as [|a [|b v]]; reflexivity.
  - unfold Notions.all_pair_distances. rewrite length_fmap, length_zip.
    clear Hv. destruct v as [|a v']; [reflexivity|]. cbn [tail length]. lia.
Qed.

(** The stops keep the order of the fixes and start after the first. *)
Lemma omap_lookup_sublist {A} (l : list A) (f : nat -> bool) (n i : nat) :
  sublist (omap (fun j => l !! j) (List.filter f (seq i n))) (drop i l).
Proof.
  revert i. induction n as [|n IH]; intros i; [apply sublist_nil_l|].
  cbn [seq List.filter].
  assert (Hnext : sublist (drop (S i) l) (drop i l)).
  { destruct (l !! i) as [x|] eqn:Hx.
    - rewrite (drop_S l x i Hx). by apply sublist_cons.
    - rewrite !drop_ge by (apply lookup_ge_None in Hx; lia). constructor. }
  destruct (f i).
  - cbn [omap list_omap]. destruct (l !! i) as [x|] eqn:Hx.
    + rewrite (drop_S l x i Hx). apply sublist_skip, IH.
    + etransitivity; [apply IH | exact Hnext].
  - etransitivity; [apply IH | exact Hnext].
Qed.

Lemma detectedStops_sublist (validCoords : list obj) :
  sublist (detectedStops haversine new_Date validCoords) (tail validCoords).
Proof.
  unfold detectedStops. rewrite stops_loop_spec by lia. cbn [app].
  replace (tail validCoords) with (drop 1 validCoords) by (by destruct validCoords).
  apply omap_lookup_sublist.
Qed.

(** [fetchData] once the query has succeeded with at least one valid row. *)
Lemma fetchData_success (result : AppView.query_result) :
  let validCoords := List.filter AppView.valid_point (AppView.data result) in
  ToBoolean (AppView.error result) = false ->
  validCoords <> [] ->
  exists (polyline : list value) (requests : list string) (first final : obj),
    AppView.fetchData haversine new_Date Number_toString ToString transport result
    = ({| AppView.coordinates := validCoords;
          AppView.polylineCoords := polyline;
          AppView.distance :=
            calculateTotalDistance haversine Number_toString (VArr (VObj <$> validCoords));
          AppView.stops := detectedStops haversine new_Date validCoords;
          AppView.startTime := prop (VObj first) "timestamp";
          AppView.endTime := prop (VObj final) "timestamp" |},
       requests)
    /\ snapToRoad ToString transport (VObj <$> validCoords) = (Normal polyline, requests)
    /\ head validCoords = Some first
    /\ last validCoords = Some final
    /\ (length requests <= 1)%nat
    /\ (polyline = VObj <$> validCoords
        \/ Forall (fun p => Notions.lat_lng_point p = true) polyline).
Proof.
  cbv zeta. set (v := List.filter AppView.valid_point (AppView.data result)).
  intros Herr Hne.
  destruct (snapToRoad_resolves ToString transport v)
    as (polyline & requests & Hsnap & Hreq & Hshape).
  destruct (head v) as [first|] eqn:Hfirst; [|by destruct v].
  destruct (last v) as [final|] eqn:Hfinal;
    [|by apply last_None in Hfinal].
  exists polyline, requests, first, final.
  split; [|done].
  unfold AppView.fetchData. rewrite Herr. fold v.
  destruct (Nat.eqb_spec (length v) 0) as [Hz|_];
    [by apply nil_length_inv in Hz|].
  rewrite Hsnap. cbn [fst snd mbind completion_bind mret completion_ret try_catch].
  rewrite !list_lookup_fmap.
  rewrite head_lookup in Hfirst. rewrite last_lookup in Hfinal.
  rewrite <- Nat.sub_1_r in Hfinal. rewrite Hfirst, Hfinal. reflexivity.
Qed.

(** X8. [fetchData] leaves every cell cleared exactly when the query
    reports an error or no row passes the validity filter, and then it
    requests nothing from the map-matching service. *)
Theorem fetchData_cleared_iff (result : AppView.query_result) :
  let outcome :=
    AppView.fetchData haversine new_Date Number_toString ToString transport result in
  let nothing_to_show :=
    ToBoolean (AppView.error result) = true
    \/ List.filter AppView.valid_point (AppView.data result) = [] in
  (outcome.1 = AppView.cleared <-> nothing_to_show)
  /\ (nothing_to_show -> outcome.2 = []).
Proof.
  cbv zeta.
  assert (Hclear :
    ToBoolean (AppView.error result) = true
    \/ List.filter AppView.valid_point (AppView.data result) = [] ->
    AppView.fetchData haversine new_Date Number_toString ToString transport result
    = (AppView.cleared, [])).
  { intros [Herr | Hnone]; unfold AppView.fetchData.
    - by rewrite Herr.
    - destruct (ToBoolean (AppView.error result)); [reflexivity|]. by rewrite Hnone. }
  split; [split|].
  - intros Hcleared.
    destruct (ToBoolean (AppView.error result)) eqn:Herr; [by left|]. right.
    destruct (List.filter AppView.valid_point (AppView.data result)) as [|pt v] eqn:Hv;
      [reflexivity|].
    destruct (fetchData_success result Herr) as (? & ? & ? & ? & Heq & _).
    { by rewrite Hv. }
    rewrite Heq in Hcleared. cbn [fst] in Hcleared.
    apply (f_equal AppView.coordinates) in Hcleared. cbn in Hcleared.
    by rewrite Hv in Hcleared.
  - intros H. by rewrite (Hclear H).
  - intros H. by rewrite (Hclear H).
Qed.

(** X9. When the query succeeds with at least one valid row, nothing the
    map-matching service does clears the state: the coordinates are exactly
    the valid rows, the distance and the stops are computed from them, the
    start and end times are the timestamps of the first and the last valid
    row, and the polyline is what [snapToRoad] resolved to on the valid
    rows (the valid rows themselves, or points whose own keys are exactly
    [latitude] and [longitude]), the requests being those of that one call,
    at most one. *)
Theorem fetchData_shows_valid_rows (result : AppView.query_result) :
  let validCoords := List.filter AppView.valid_point (AppView.data result) in
  ToBoolean (AppView.error result) = false ->
  validCoords <> [] ->
  exists (polyline : list value) (requests : list string) (first final : obj),
    AppView.fetchData haversine new_Date Number_toString ToString transport result
    = ({| AppView.coordinates := validCoords;
          AppView.polylineCoords := polyline;
          AppView.distance :=
            calculateTotalDistance haversine Number_toString (VArr (VObj <$> validCoords));
          AppView.stops := detectedStops haversine new_Date validCoords;
          AppView.startTime := prop (VObj first) "timestamp";
          AppView.endTime := prop (VObj final) "timestamp" |},
       requests)
    /\ snapToRoad ToString transport (VObj <$> validCoords) = (Normal polyline, requests)
    /\ head validCoords = Some first
    /\ last validCoords = Some final
    /\ (length requests <= 1)%nat
    /\ (polyline = VObj <$> validCoords
        \/ Forall (fun p => Notions.lat_lng_point p = true) polyline).
Proof. exact (fetchData_success result). Qed.

(** X10. In every state [fetchData] ends in: the coordinates are rows of
    the query, in their order, all with a numeric latitude and longitude
    that is not [NaN]; the stops are among the coordinates after the first,
    in their order; and making the polyline positions does not throw. *)
Theorem fetchData_invariants (result : AppView.query_result) :
  let s :=
    (AppView.fetchData haversine new_Date Number_toString ToString transport result).1 in
  sublist (AppView.coordinates s) (AppView.data result)
  /\ Forall (fun pt => Spec.has_numeric_position (VObj pt) = true
                       /\ Spec.has_NaN_coordinate pt = false)
       (AppView.coordinates s)
  /\ sublist (AppView.stops s) (tail (AppView.coordinates s))
  /\ exists ps, AppView.polylinePositions (AppView.polylineCoords s) = Normal ps
                /\ length ps = length (AppView.polylineCoords s).
Proof.
  cbv zeta.
  destruct (ToBoolean (AppView.error result)) eqn:Herr.
  { unfold AppView.fetchData. rewrite Herr. cbn.
    repeat split; try constructor; try apply sublist_nil_l. by exists []. }
  destruct (List.filter AppView.valid_point (AppView.data result)) as [|pt v] eqn:Hv.
  { unfold AppView.fetchData. rewrite Herr, Hv. cbn.
    repeat split; try constructor; try apply sublist_nil_l. by exists []. }
  destruct (fetchData_success result Herr) as (polyline & ? & ? & ? & -> & _ & _ & _ & _ & Hshape).
  { by rewrite Hv. }
  cbn [fst AppView.coordinates AppView.stops AppView.polylineCoords].
  split; [|split; [|split]].
  - clear. induction (AppView.data result) as [|r rows IH]; [constructor|].
    cbn [List.filter]. destruct (AppView.valid_point r);
      [by apply sublist_skip | by apply sublist_cons].
  - eapply Forall_impl; [apply filter_valid|]. cbn. intros p Hp.
    split; [by apply valid_point_numeric | by apply valid_point_no_NaN].
  - apply detectedStops_sublist.
  - apply polylinePositions_defined.
    destruct Hshape as [-> | Hpts].
    + apply Forall_fmap, Forall_forall. by intros.
    + eapply Forall_impl; [exact Hpts|]. by intros [].
Qed.

End DerivedState.

Lemma fetchData_shows_valid_rows_witness :
  exists (polyline : list value) (requests : list string) (first final : obj),
    AppView.fetchData Examples.grid_distance Examples.epoch_ms Examples.show_number
      Examples.show_value Examples.unreachable Samples.rows
    = ({| AppView.coordinates := [Examples.fixA; Examples.fixB];
          AppView.polylineCoords := polyline;
          AppView.distance :=
            calculateTotalDistance Examples.grid_distance Examples.show_number
              (VArr (VObj <$> [Examples.fixA; Examples.fixB]));
          AppView.stops :=
            detectedStops Examples.grid_distance Examples.epoch_ms
              [Examples.fixA; Examples.fixB];
          AppView.startTime := prop (VObj first) "timestamp";
          AppView.endTime := prop (VObj final) "timestamp" |},
       requests)
    /\ snapToRoad Examples.show_value Examples.unreachable
         (VObj <$> [Examples.fixA; Examples.fixB])
       = (Normal polyline, requests)
    /\ head [Examples.fixA; Examples.fixB] = Some first
    /\ last [Examples.fixA; Examples.fixB] = Some final
    /\ (length requests <= 1)%nat
    /\ (polyline = VObj <$> [Examples.fixA; Examples.fixB]
        \/ Forall (fun p => Notions.lat_lng_point p = true) polyline).
Proof.
  apply (fetchData_shows_valid_rows Examples.grid_distance Examples.epoch_ms
           Examples.show_number Examples.show_value Examples.unreachable Samples.rows);
    [reflexivity | discriminate].
Defined.

(** ** The tracking-id selector *)

Section TrackingIds.

Lemma existsb_same_string (s : string) (acc : list string) :
  existsb (AppView.same_value_zero (VStr s)) (VStr <$> acc) = bool_decide (s ∈ acc).
Proof.
  induction acc as [|a acc IH]; [reflexivity|].
  cbn [fmap list_fmap existsb]. fold (fmap (M:=list) VStr acc). rewrite IH.
  cbn [AppView.same_value_zero strict_eq].
  destruct (String.eqb_spec s a) as [->|Hne].
  - cbn. symmetry. apply bool_decide_eq_true. set_solver.
  - cbn. apply bool_decide_ext. set_solver.
Qed.

(** Adding strings one by one keeps the elements distinct and adds exactly
    the new ones. *)
Lemma fold_Set_add_strings (strs acc : list string) :
  NoDup acc ->
  exists ids : list string,
    fold_left AppView.Set_add (VStr <$> strs) (VStr <$> acc) = VStr <$> ids
    /\ NoDup ids
    /\ forall s, s ∈ ids <-> s ∈ acc \/ s ∈ strs.
Proof.
  revert acc. induction strs as [|s strs IH]; intros acc Hacc.
  - exists acc. cbn. split; [done|]. split; [done|]. set_solver.
  - cbn [fmap list_fmap fold_left]. fold (fmap (M:=list) VStr strs).
    unfold AppView.Set_add at 2. rewrite existsb_same_string.
    destruct (bool_decide_reflect (s ∈ acc)) as [Hin|Hnotin].
    + destruct (IH acc Hacc) as (ids & Heq & Hnd & Hmem).
      exists ids. split; [done|]. split; [done|]. set_solver.
    + destruct (IH (acc ++ [s])) as (ids & Heq & Hnd & Hmem).
      { apply NoDup_app. split; [done|]. split; [set_solver | apply NoDup_singleton]. }
      exists ids. rewrite fmap_app in Heq. split; [done|]. split; [done|]. set_solver.
Qed.

(** X11. When the query fails, the selector gets no entry at all. When it
    succeeds on rows whose tracking ids are strings, the selector gets "All"
    followed by those ids without repetition: each id of a row once, and
    nothing else. *)
Theorem fetchTrackingIds_unique (result : AppView.query_result) :
  (ToBoolean (AppView.error result) = true -> AppView.fetchTrackingIds result = [])
  /\ (ToBoolean (AppView.error result) = false ->
      Forall (fun d : obj => exists s, prop (VObj d) "tracking_id" = VStr s)
        (AppView.data result) ->
      exists ids : list string,
        AppView.fetchTrackingIds result = VStr "All" :: (VStr <$> ids)
        /\ NoDup ids
        /\ forall s, s ∈ ids
                     <-> exists d, d ∈ AppView.data result
                                   /\ prop (VObj d) "tracking_id" = VStr s).
Proof.
  unfold AppView.fetchTrackingIds. split; [by intros ->|].
  intros -> Hstr.
  assert (Hids : exists strs : list string,
             (fun d : obj => prop (VObj d) "tracking_id") <$> AppView.data result
             = VStr <$> strs
             /\ forall s, s ∈ strs
                          <-> exists d, d ∈ AppView.data result
                                        /\ prop (VObj d) "tracking_id" = VStr s).
  { induction Hstr as [|d rows [s Hs] _ (strs & Heq & Hmem)].
    - exists []. split; [reflexivity|]. intros s. split; [set_solver|].
      intros (d & Hd & _). set_solver.
    - exists (s :: strs). split; [by rewrite !fmap_cons, Hs, Heq|].
      intros s'. rewrite elem_of_cons, Hmem. split.
      + intros [-> | (d' & Hd' & Hs')]; [exists d | exists d']; set_solver.
      + intros (d' & [-> | Hd']%elem_of_cons & Hs').
        * left. congruence.
        * right. by exists d'. }
  destruct Hids as (strs & -> & Hmem).
  destruct (fold_Set_add_strings strs [] (NoDup_nil_2 (A:=string))) as (ids & Heq & Hnd & Hids).
  exists ids. unfold AppView.Array_from_Set.
  change ([] : list value) with (VStr <$> ([] : list string)). rewrite Heq.
  split; [done|]. split; [done|].
  intros s. rewrite Hids, <- Hmem. set_solver.
Qed.

End TrackingIds.

Lemma fetchTrackingIds_unique_witness :
  exists ids : list string,
    AppView.fetchTrackingIds Samples.rows = VStr "All" :: (VStr <$> ids)
    /\ NoDup ids
    /\ forall s, s ∈ ids
                 <-> exists d, d ∈ AppView.data Samples.rows
                               /\ prop (VObj d) "tracking_id" = VStr s.
Proof.
  apply (proj2 (fetchTrackingIds_unique Samples.rows)); [reflexivity|].
  repeat (apply List.Forall_cons; [by exists "T1"|]). apply List.Forall_nil.
Defined.

(** ** Timestamps that do not parse *)

Lemma div_nan_l (x y : float) :
  PrimFloat.is_nan x = true -> PrimFloat.is_nan (x / y) = true.
Proof. rewrite !is_nan_Prim2SF, div_spec. by intros ->. Qed.

Lemma leb_nan_r (x y : float) :
  PrimFloat.is_nan y = true -> (x <=? y)%float = false.
Proof.
  rewrite is_nan_Prim2SF, leb_spec. intros ->.
  unfold SFleb. by destruct (Prim2SF x).
Qed.

Section InvalidTimestamps.

Variable haversine : obj -> obj -> obj -> float.
Variable new_Date : value -> float.

Lemma elapsed_ms_invalid (a b : obj) :
  Notions.invalid_timestamp new_Date a || Notions.invalid_timestamp new_Date b = true ->
  PrimFloat.is_nan (elapsed_ms new_Date a b) = true.
Proof.
  unfold Notions.invalid_timestamp, elapsed_ms.
  intros [H|H]%orb_true_iff; [by apply sub_nan_r | by apply sub_nan_l].
Qed.

(** X12. When the timestamp of either fix of a consecutive pair is an
    invalid date, the pair is never a stop, its speed is 0 and the later
    fix is labelled "Walking", whatever the distance. *)
Theorem invalid_timestamp_pair
    (coordinates : list obj) (i : nat) (previous coord : obj) :
  coordinates !! i = Some previous ->
  coordinates !! S i = Some coord ->
  Notions.invalid_timestamp new_Date previous
  || Notions.invalid_timestamp new_Date coord = true ->
  isStop haversine new_Date coord previous = false
  /\ calculateSpeed haversine new_Date previous coord = 0%float
  /\ speedLabel haversine new_Date coordinates (S i) = "Walking".
Proof.
  intros Hprev Hcoord Hbad.
  pose proof (elapsed_ms_invalid previous coord Hbad) as Hnan.
  assert (Hspeed : calculateSpeed haversine new_Date previous coord = 0%float).
  { unfold calculateSpeed. cbn [ToBoolean].
    rewrite (div_nan_l _ 3600000 Hnan). by rewrite orb_true_r. }
  split; [|split; [exact Hspeed|]].
  - unfold isStop. rewrite (leb_nan_r 5 _ (div_nan_l _ 60000 Hnan)).
    apply andb_false_r.
  - unfold speedLabel. rewrite Hprev, Hcoord, Hspeed. reflexivity.
Qed.

End InvalidTimestamps.

Lemma invalid_timestamp_pair_witness :
  isStop Examples.grid_distance Examples.epoch_ms Samples.fixBadTime Examples.fixA = false
  /\ calculateSpeed Examples.grid_distance Examples.epoch_ms
       Examples.fixA Samples.fixBadTime = 0%float
  /\ speedLabel Examples.grid_distance Examples.epoch_ms
       [Examples.fixA; Samples.fixBadTime] 1 = "Walking".
Proof.
  apply (invalid_timestamp_pair Examples.grid_distance Examples.epoch_ms
           [Examples.fixA; Samples.fixBadTime] 0 Examples.fixA Samples.fixBadTime);
    reflexivity.
Defined.

(** ** The default query window of the variant with explicit dates *)

Lemma list_ascii_of_string_app (s1 s2 : string) :
  String.list_ascii_of_string (s1 +:+ s2)
  = String.list_ascii_of_string s1 ++ String.list_ascii_of_string s2.
Proof.
  induction s1 as [|c s1 IH]; [reflexivity|].
  change (String c s1 +:+ s2) with (String c (s1 +:+ s2)).
  cbn [String.list_ascii_of_string app]. by rewrite IH.
Qed.

Lemma string_length_chars (s : string) :
  String.length s = length (String.list_ascii_of_string s).
Proof. induction s as [|c s IH]; [reflexivity|]. cbn. f_equal. exact IH. Qed.

Lemma years_read_back :
  Spec.holds_from (AppDates.reads_back 4 AppDates.integer_toString) (Z.to_nat 9000) 1000
  = true.
Proof. vm_compute. reflexivity. Qed.

Lemma pads_read_back :
  Spec.holds_from (AppDates.reads_back 2 AppDates.pad) (Z.to_nat 100) 0 = true.
Proof. vm_compute. reflexivity. Qed.

Lemma reads_back_spec (width : nat) (show : Z -> string) (n : Z) :
  AppDates.reads_back width show n = true ->
  length (String.list_ascii_of_string (show n)) = width
  /\ AppDates.digits 0 (String.list_ascii_of_string (show n)) = Some n.
Proof.
  unfold AppDates.reads_back. intros [Hlen Hval]%andb_true_iff.
  split; [by apply Nat.eqb_eq|].
  destruct (AppDates.digits 0 _) as [m|]; [|done]. apply Z.eqb_eq in Hval. by subst.
Qed.

(** The day of the month is a day of that month. *)
Lemma DateFromTime_in_month (t : Z) :
  DateFromTime t <= AppDates.days_in_month (YearFromTime t) (MonthFromTime t + 1).
Proof.
  unfold AppDates.days_in_month.
  replace (MonthFromTime t + 1 - 1) with (MonthFromTime t) by lia.
  rewrite MakeDay_same_month.
  pose proof (MonthFromTime_range t) as Hm.
  pose proof (DayWithinYear_range t) as Hw.
  pose proof (DayFromYear_step (YearFromTime t)) as Hstep.
  assert (Hleap : DaysInYear (YearFromTime t) = 365 + InLeapYear t).
  { unfold InLeapYear.
    destruct (DaysInYear_cases (YearFromTime t)) as [E|E]; rewrite E; reflexivity. }
  unfold MakeDay. cbv zeta.
  destruct (Z.eq_dec (MonthFromTime t) 11) as [E11|Hne].
  - rewrite E11. change ((11 + 1) / 12) with 1. change ((11 + 1) mod 12) with 0.
    cbn [DaysBeforeMonth].
    assert (Hd : DateFromTime t = DayWithinYear t - (334 + InLeapYear t) + 1).
    { unfold DateFromTime. rewrite E11. reflexivity. }
    unfold DayWithinYear in *. lia.
  - replace ((MonthFromTime t + 1) / 12) with 0 by div_lia.
    replace ((MonthFromTime t + 1) mod 12) with (MonthFromTime t + 1) by div_lia.
    rewrite Z.add_0_r. fold (InLeapYear t).
    unfold DateFromTime, DayWithinYear in *. revert Hm Hne.
    unfold MonthFromTime. cbv zeta. unfold DayWithinYear.
    set (w := Day t - DayFromYear (YearFromTime t)) in *.
    destruct (InLeapYear_cases t) as [E|E]; rewrite E in *;
      repeat match goal with
             | |- context [if ?a <? ?b then _ else _] => destruct (Z.ltb_spec a b)
             end; intros;
      repeat match goal with
             | |- context [DaysBeforeMonth ?a ?b] =>
                 let v := eval vm_compute in (DaysBeforeMonth a b) in
                 change (DaysBeforeMonth a b) with v
             end; lia.
Qed.

Section DefaultWindow.

Variable LocalTZA : Z -> bool -> Z.

(** X13. In the variant with explicit dates, for a clock read in a local
    year from 1000 to 9999, the default date string has 10 characters and
    the default query window is the day, taken in UTC, that bears the local
    calendar date: from its 00:00:00.000 UTC to its 23:59:59.999 UTC. *)
Theorem default_window (t : Z) :
  1000 <= YearFromTime (LocalTime LocalTZA t) <= 9999 ->
  let today := AppDates.todayStr LocalTZA t in
  let day := Day (LocalTime LocalTZA t) in
  String.length today = 10%nat
  /\ AppDates.fromTime today = Some (MakeDate day (MakeTime 0 0 0 0))
  /\ AppDates.toTime today = Some (MakeDate day (MakeTime 23 59 59 999)).
Proof.
  intros Hyear. cbv zeta. set (lt := LocalTime LocalTZA t) in *.
  pose proof (MonthFromTime_range lt) as Hm.
  pose proof (DateFromTime_range lt) as Hd.
  pose proof (DateFromTime_in_month lt) as Hdm.
  destruct (reads_back_spec 4 AppDates.integer_toString (YearFromTime lt)) as [HYl HYv].
  { apply (holds_from_spec _ _ _ years_read_back). rewrite Z2Nat.id; lia. }
  destruct (reads_back_spec 2 AppDates.pad (MonthFromTime lt + 1)) as [HMl HMv].
  { apply (holds_from_spec _ _ _ pads_read_back). rewrite Z2Nat.id; lia. }
  destruct (reads_back_spec 2 AppDates.pad (DateFromTime lt)) as [HDl HDv].
  { apply (holds_from_spec _ _ _ pads_read_back). rewrite Z2Nat.id; lia. }
  assert (Hday : MakeDay (YearFromTime lt) (MonthFromTime lt + 1 - 1) (DateFromTime lt)
                 = Day lt).
  { replace (MonthFromTime lt + 1 - 1) with (MonthFromTime lt) by lia.
    rewrite MakeDay_same_month. lia. }
  assert (Hrange : -100000000 * 1 <= Day lt <= 100000000 - 1).
  { pose proof (YearFromTime_spec lt) as Hy.
    pose proof (DayFromYear_mono 1000 (YearFromTime lt)) as H1.
    pose proof (DayFromYear_mono (YearFromTime lt + 1) 10000) as H2.
    change (DayFromYear 1000) with (-354285) in H1.
    change (DayFromYear 10000) with 2932897 in H2. lia. }
  unfold AppDates.fromTime, AppDates.toTime, AppDates.new_Date_string,
    AppDates.todayStr. fold lt.
  rewrite !string_length_chars, !list_ascii_of_string_app.
  destruct (String.list_ascii_of_string (AppDates.integer_toString (YearFromTime lt)))
    as [|y1 [|y2 [|y3 [|y4 [|]]]]]; try discriminate HYl.
  destruct (String.list_ascii_of_string (AppDates.pad (MonthFromTime lt + 1)))
    as [|m1 [|m2 [|]]]; try discriminate HMl.
  destruct (String.list_ascii_of_string (AppDates.pad (DateFromTime lt)))
    as [|d1 [|d2 [|]]]; try discriminate HDl.
  cbn [app String.list_ascii_of_string length].
  rewrite HYv, HMv, HDv. cbn [mbind option_bind].
  repeat match goal with
         | |- context [AppDates.digits 0 ?l] =>
             let v := eval vm_compute in (AppDates.digits 0 l) in
             change (AppDates.digits 0 l) with v
         end.
  cbn [mbind option_bind]. rewrite Hday.
  destruct (Z.leb_spec 1 (MonthFromTime lt + 1)); [|lia].
  destruct (Z.leb_spec (MonthFromTime lt + 1) 12); [|lia].
  destruct (Z.leb_spec 1 (DateFromTime lt)); [|lia].
  destruct (Z.leb_spec (DateFromTime lt)
              (AppDates.days_in_month (YearFromTime lt) (MonthFromTime lt + 1))); [|lia].
  cbn [andb orb Z.leb Z.compare Pos.compare Pos.compare_cont].
  split; [reflexivity|].
  split; apply TimeClip_within; time_lia.
Qed.

End DefaultWindow.

Lemma default_window_witness :
  AppDates.todayStr Examples.ist Examples.mid_morning = "2024-03-15"
  /\ String.length (AppDates.todayStr Examples.ist Examples.mid_morning) = 10%nat
  /\ AppDates.fromTime (AppDates.todayStr Examples.ist Examples.mid_morning)
     = Some (MakeDate (Day (LocalTime Examples.ist Examples.mid_morning))
               (MakeTime 0 0 0 0))
  /\ AppDates.toTime (AppDates.todayStr Examples.ist Examples.mid_morning)
     = Some (MakeDate (Day (LocalTime Examples.ist Examples.mid_morning))
               (MakeTime 23 59 59 999)).
Proof.
  split; [vm_compute; reflexivity|].
  apply (default_window Examples.ist Examples.mid_morning). vm_compute. split; discriminate.
Defined.
